(** * Credential and token core of the property-listing backend

  A shallow embedding of [backend/app/auth.py], [backend/app/api/auth.py]
  and the ownership checks of [backend/app/api/properties.py], with the
  properties of the credential-and-token subsystem proved about it.

  Conventions.
  - A Python call that may raise is a computation in [Result]; a handler
    that reads or writes the SQLAlchemy session or prints is a
    computation in [M], a state-and-exception monad over [World].
  - The two third-party libraries the code calls, passlib's
    [CryptContext] and python-jose's [jwt], are interfaces
    ([PasswordContext], [JwtCodec]); every definition of the application
    is parameterised by them.
  - [datetime] and [timedelta] are integers counting microseconds, the
    resolution of the Python types. *)

From stdpp Require Import gmap strings list fin_maps.
From Stdlib Require Import ZArith.

Local Open Scope string_scope.
Local Open Scope Z_scope.

(** ** Python values and exceptions *)

Module Py.

Definition datetime := Z.
Definition timedelta := Z.

(** [timedelta(minutes=n)] *)
Definition minutes (n : Z) : timedelta := n * 60 * 1000000.

(** [calendar.timegm(t.utctimetuple())]: whole seconds since the epoch. *)
Definition timegm (t : datetime) : Z := t `div` 1000000.

(** The classes of [jose.exceptions] that [jwt.decode] raises; all of
    them derive from [JWTError]. The first two are plain [JWTError]s
    that differ in their message only. *)
Inductive JWTError :=
| SignatureVerificationFailed
| MalformedToken
| ExpiredSignatureError
| JWTClaimsError.

Inductive Exception :=
| HTTPException (status_code : Z) (detail : string)
                (headers : option (list (string * string)))
| JoseError (e : JWTError)
| UnknownHashError
| ValidationError.

Inductive Result (A : Type) :=
| Return (a : A)
| Raise (e : Exception).
Arguments Return {A} a.
Arguments Raise {A} e.

#[global] Instance Result_ret : MRet Result := @Return.
#[global] Instance Result_bind : MBind Result := λ A B f r,
  match r with
  | Return a => f a
  | Raise e => Raise e
  end.

#[global] Instance JWTError_eq_dec : EqDecision JWTError.
Proof. solve_decision. Defined.
#[global] Instance Exception_eq_dec : EqDecision Exception.
Proof. solve_decision. Defined.

(** The values a JWT claim takes in this program. *)
Inductive Claim :=
| CStr (s : string)
| CInt (n : Z)
| CDatetime (t : datetime).

#[global] Instance Claim_eq_dec : EqDecision Claim.
Proof. solve_decision. Defined.

End Py.
Export Py.

(** ** app/models.py *)

Module Models.

Inductive UserRole := ADMIN | AGENT | CLIENT.

#[global] Instance UserRole_eq_dec : EqDecision UserRole.
Proof. solve_decision. Defined.

Inductive PropertyStatus := DRAFT | ACTIVE | SOLD | WITHDRAWN | PENDING.

(** A row of [users]. *)
Record User := mkUser {
  u_id : Z;
  u_email : string;
  u_username : string;
  u_hashed_password : string;
  u_first_name : option string;
  u_last_name : option string;
  u_phone_number : option string;
  u_profile_image_url : option string;
  u_role : UserRole;
  u_is_active : bool;
  u_is_verified : bool;
  u_created_at : datetime;
  u_updated_at : datetime;
  u_last_login : option datetime
}.

(** A row of [properties]; of the descriptive columns only the title and
    the status are kept, the float and JSON columns play no part in the
    checks modelled here. *)
Record Property := mkProperty {
  p_id : Z;
  p_owner_id : Z;
  p_agent_id : option Z;
  p_title : string;
  p_status : PropertyStatus
}.

(** [user.last_login = t], flushed by an UPDATE, which also fires the
    [onupdate=func.now()] default of [updated_at]. *)
Definition set_last_login (t : datetime) (u : User) : User :=
  mkUser (u_id u) (u_email u) (u_username u) (u_hashed_password u)
         (u_first_name u) (u_last_name u) (u_phone_number u)
         (u_profile_image_url u) (u_role u) (u_is_active u)
         (u_is_verified u) (u_created_at u) t (Some t).

(** [user.hashed_password = h], flushed at time [t]. *)
Definition set_hashed_password (h : string) (t : datetime) (u : User) : User :=
  mkUser (u_id u) (u_email u) (u_username u) h
         (u_first_name u) (u_last_name u) (u_phone_number u)
         (u_profile_image_url u) (u_role u) (u_is_active u)
         (u_is_verified u) (u_created_at u) t (u_last_login u).

Definition set_title (s : string) (p : Property) : Property :=
  mkProperty (p_id p) (p_owner_id p) (p_agent_id p) s (p_status p).

Definition set_status (s : PropertyStatus) (p : Property) : Property :=
  mkProperty (p_id p) (p_owner_id p) (p_agent_id p) (p_title p) s.

End Models.
Export Models.

(** ** The session and the handler monad *)

Module Session.

(** What a request handler can observe and change: the two tables, in
    the order in which an unordered query returns their rows, and the
    process's standard output. *)
Record World := mkWorld {
  users : list User;
  properties : list Property;
  stdout : list string
}.

Definition with_users (f : list User → list User) (w : World) : World :=
  mkWorld (f (users w)) (properties w) (stdout w).

Definition with_properties (f : list Property → list Property) (w : World) : World :=
  mkWorld (users w) (f (properties w)) (stdout w).

(** [print(line)] *)
Definition print_line (line : string) (w : World) : World :=
  mkWorld (users w) (properties w) (stdout w ++ [line]).

(** A handler: runs in a world, returns or raises, leaves a world. All
    writes of the handlers are committed before they can raise, so the
    world left behind on [Raise] is the committed one. *)
Definition M (A : Type) : Type := World → Result A * World.

#[global] Instance M_ret : MRet M := λ A a w, (Return a, w).
#[global] Instance M_bind : MBind M := λ A B f m w,
  match m w with
  | (Return a, w') => f a w'
  | (Raise e, w') => (Raise e, w')
  end.

Definition raise {A} (e : Exception) : M A := λ w, (Raise e, w).
Definition lift {A} (r : Result A) : M A := λ w, (r, w).
Definition gets {A} (f : World → A) : M A := λ w, (Return (f w), w).
Definition modify (f : World → World) : M unit := λ w, (Return tt, f w).

(** An ORM object attached to the session: the row it is bound to and
    its attribute values. *)
Definition Bound (A : Type) : Type := nat * A.

End Session.
Export Session.

(** ** The library interfaces *)

Module Lib.

(** [passlib.context.CryptContext]: [hash] draws a salt, made explicit
    here; [verify] returns a boolean or raises. *)
Class PasswordContext := {
  pwd_hash : string → string → string;
  pwd_verify : string → string → Result bool
}.

(** [jose.jwt]: the token is an opaque [str], left abstract. [jwt_decode]
    also reads the clock, made explicit as its last argument. *)
Class JwtCodec := {
  Token : Type;
  jwt_encode : gmap string Claim → string → string → Token;
  jwt_decode : Token → string → list string → datetime →
               Result (gmap string Claim)
}.

(** What [jwt.encode] followed by [jwt.decode] with the same key and
    algorithm does to a claim set whose only time claim is a datetime
    [exp]: the expiry is stored in whole seconds, and the token is
    refused once the clock, in whole seconds, has passed it. *)
Class JwtCodecLaws `{JwtCodec} := {
  decode_encode :
    ∀ (data : gmap string Claim) (e : datetime) (key alg : string) (now : datetime),
      data !! "iat" = None → data !! "nbf" = None →
      jwt_decode (jwt_encode (<["exp" := CDatetime e]> data) key alg) key [alg] now
      = if bool_decide (timegm e < timegm now)
        then Raise (JoseError ExpiredSignatureError)
        else Return (<["exp" := CInt (timegm e)]> data)
}.

End Lib.
Export Lib.

(** ** app/auth.py *)

Module Auth.
Section Auth.
Context `{PasswordContext} `{JwtCodec}.

Definition SECRET_KEY : string := "your-secret-key-here-change-in-production".
Definition ALGORITHM : string := "HS256".
Definition ACCESS_TOKEN_EXPIRE_MINUTES : Z := 30.

Definition verify_password (plain_password hashed_password : string) : Result bool :=
  pwd_verify plain_password hashed_password.

Definition get_password_hash (salt password : string) : string :=
  pwd_hash salt password.

(** [(User.username == s) | (User.email == s)] *)
Definition username_or_email (s : string) (u : User) : Prop :=
  u_username u = s ∨ u_email u = s.

#[global] Instance username_or_email_dec s u : Decision (username_or_email s u).
Proof. unfold username_or_email. apply _. Defined.

(** [False] is [None], a user is [Some]. The [or] does not call
    [verify_password] when no row matched. *)
Definition authenticate_user (db : list User) (username password : string)
  : Result (option User) :=
  match list_find (username_or_email username) db with
  | None => Return None
  | Some (_, user) =>
      ok ← verify_password password (u_hashed_password user);
      if negb ok then Return None else Return (Some user)
  end.

(** [now] is the value of [datetime.now(timezone.utc)]. A [timedelta] is
    true unless it is zero. The sum is the sum of integers: Python's
    [datetime + timedelta] raises [OverflowError] when the result leaves
    the years 1 to 9999, and the function is what the source computes
    while the expiry is [representable]; the theorems that range over
    every lifetime assume that it is. *)
Definition create_access_token (data : gmap string Claim)
    (expires_delta : option timedelta) (now : datetime) : Token :=
  let to_encode := data in
  let expire :=
    match expires_delta with
    | Some d => if bool_decide (d ≠ 0) then now + d else now + minutes 15
    | None => now + minutes 15
    end in
  let to_encode := <["exp" := CDatetime expire]> to_encode in
  jwt_encode to_encode SECRET_KEY ALGORITHM.

Definition credentials_exception : Exception :=
  HTTPException 401 "Could not validate credentials"
                (Some [("WWW-Authenticate", "Bearer")]).

(** The [try] block: the subject of the token, or what is raised past
    the [except JWTError]. *)
Definition token_username (token : Token) (now : datetime) : Result string :=
  match jwt_decode token SECRET_KEY [ALGORITHM] now with
  | Return payload =>
      match payload !! "sub" with
      | None => Raise credentials_exception
      | Some (CStr username) => Return username
      | Some _ => Raise ValidationError
      end
  | Raise (JoseError _) => Raise credentials_exception
  | Raise e => Raise e
  end.

(** One reading [now] of the clock serves the expiry check, the new
    [last_login] and the UPDATE. The row is written in place: the order
    of the list is the order the query of this call returned, not a
    promise about the next query, which the database may answer in
    another order once a row has been updated. *)
Definition get_current_user (token : Token) (now : datetime) : M (Bound User) :=
  username ← lift (token_username token now);
  found ← gets (λ w, list_find (username_or_email username) (users w));
  match found with
  | None => raise credentials_exception
  | Some (i, user) =>
      let user := set_last_login now user in
      _ ← modify (with_users (<[i := user]>));
      mret (i, user)
  end.

Definition get_current_active_user (current_user : Bound User) : Result (Bound User) :=
  if negb (u_is_active current_user.2)
  then Raise (HTTPException 400 "Inactive user" None)
  else Return current_user.

Definition require_roles (allowed_roles : list UserRole)
    (current_user : Bound User) : Result (Bound User) :=
  if bool_decide (u_role current_user.2 ∉ allowed_roles)
  then Raise (HTTPException 403 "Insufficient permissions" None)
  else Return current_user.

Definition get_admin_user (current_user : Bound User) : Result (Bound User) :=
  if bool_decide (u_role current_user.2 ≠ ADMIN)
  then Raise (HTTPException 403 "Admin access required" None)
  else Return current_user.

Definition get_agent_user (current_user : Bound User) : Result (Bound User) :=
  if bool_decide (u_role current_user.2 ∉ [AGENT; ADMIN])
  then Raise (HTTPException 403 "Agent or admin access required" None)
  else Return current_user.

End Auth.
End Auth.
Export Auth.

(** ** app/api/auth.py *)

Module ApiAuth.

(** The body of a [schemas.Token] response, over the type of tokens. *)
Record TokenOut (T : Type) := mkTokenOut {
  access_token : T;
  token_type : string
}.
Arguments mkTokenOut {T} access_token token_type.
Arguments access_token {T} t.
Arguments token_type {T} t.

Section ApiAuth.
Context `{PasswordContext} `{JwtCodec}.

Definition reset_acknowledgment : gmap string string :=
  {["message" := "If this email is registered, you will receive a password reset link."]}.

Definition forgot_password (email : string) : M (gmap string string) :=
  user ← gets (λ w, list_find (λ u, u_email u = email) (users w));
  match user with
  | None => mret reset_acknowledgment
  | Some (_, user) =>
      _ ← modify (print_line ("[DEBUG] Password reset requested for user: "
                              +:+ u_username user +:+ " (" +:+ u_email user +:+ ")"));
      mret reset_acknowledgment
  end.

Definition login_for_access_token (username password : string) (now : datetime)
  : M (TokenOut Token) :=
  user ← (λ w, (authenticate_user (users w) username password, w));
  match user with
  | None =>
      raise (HTTPException 401 "Incorrect username or password"
                           (Some [("WWW-Authenticate", "Bearer")]))
  | Some user =>
      if negb (u_is_active user)
      then raise (HTTPException 401 "User account is disabled"
                                (Some [("WWW-Authenticate", "Bearer")]))
      else
        let access_token_expires := minutes ACCESS_TOKEN_EXPIRE_MINUTES in
        let access_token :=
          create_access_token {["sub" := CStr (u_username user)]}
                              (Some access_token_expires) now in
        mret (mkTokenOut access_token "bearer")
  end.

(** [salt] is the salt [get_password_hash] draws, [now] the time of the
    UPDATE. The row is written in place, as in [get_current_user]. *)
Definition change_password (current_password new_password : string)
    (current_user : Bound User) (salt : string) (now : datetime)
  : M (gmap string string) :=
  let '(i, user) := current_user in
  ok ← lift (verify_password current_password (u_hashed_password user));
  if negb ok
  then raise (HTTPException 400 "Incorrect current password" None)
  else
    let user := set_hashed_password (get_password_hash salt new_password) now user in
    _ ← modify (with_users (<[i := user]>));
    mret {["detail" := "Password updated successfully"]}.

Definition refresh_access_token (current_user : Bound User) (now : datetime)
  : M (TokenOut Token) :=
  let access_token_expires := minutes ACCESS_TOKEN_EXPIRE_MINUTES in
  let access_token :=
    create_access_token {["sub" := CStr (u_username current_user.2)]}
                        (Some access_token_expires) now in
  mret (mkTokenOut access_token "bearer").

(** The two routes with their [Depends(get_current_user)] resolved from
    the bearer token of the request. *)
Definition change_password_route (token : Token)
    (current_password new_password salt : string) (now : datetime)
  : M (gmap string string) :=
  current_user ← get_current_user token now;
  change_password current_password new_password current_user salt now.

Definition refresh_access_token_route (token : Token) (now : datetime) : M (TokenOut Token) :=
  current_user ← get_current_user token now;
  refresh_access_token current_user now.

End ApiAuth.
End ApiAuth.
Export ApiAuth.

(** ** app/api/properties.py *)

Module ApiProperties.

(** The fields of [schemas.PropertyUpdate] that were set in the request
    ([dict(exclude_unset=True)]); [None] is an unset field. *)
Record PropertyUpdate := mkPropertyUpdate {
  upd_title : option string;
  upd_status : option PropertyStatus
}.

(** The [setattr] loop. *)
Definition apply_update (upd : PropertyUpdate) (p : Property) : Property :=
  let p := match upd_title upd with Some s => set_title s p | None => p end in
  match upd_status upd with Some s => set_status s p | None => p end.

Definition not_found : Exception := HTTPException 404 "Property not found" None.
Definition not_authorized : Exception := HTTPException 403 "Not authorized" None.

(** The condition of the [if] in [update_property]: neither the owner, nor
    the assigned agent, nor an administrator. *)
Definition update_property_denied (property : Property) (current_user : User) : bool :=
  bool_decide (p_owner_id property ≠ u_id current_user)
  && bool_decide (p_agent_id property ≠ Some (u_id current_user))
  && bool_decide (u_role current_user ≠ ADMIN).

(** The condition of the [if] in [delete_property]. *)
Definition delete_property_denied (property : Property) (current_user : User) : bool :=
  bool_decide (p_owner_id property ≠ u_id current_user)
  && bool_decide (u_role current_user ≠ ADMIN).

Definition update_property (property_id : Z) (property_update : PropertyUpdate)
    (current_user : Bound User) : M Property :=
  found ← gets (λ w, list_find (λ p, p_id p = property_id) (properties w));
  match found with
  | None => raise not_found
  | Some (i, property) =>
      if update_property_denied property current_user.2
      then raise not_authorized
      else
        let property := apply_update property_update property in
        _ ← modify (with_properties (<[i := property]>));
        mret property
  end.

Definition delete_property (property_id : Z) (current_user : Bound User)
  : M (gmap string string) :=
  found ← gets (λ w, list_find (λ p, p_id p = property_id) (properties w));
  match found with
  | None => raise not_found
  | Some (i, property) =>
      if delete_property_denied property current_user.2
      then raise not_authorized
      else
        _ ← modify (with_properties (delete i));
        mret {["detail" := "Property deleted successfully"]}
  end.

(** The owner-or-role guard as the specification words it, to compare the
    two inline checks with: it succeeds when the identity's id is among
    the owner ids or its role among the allowed roles, and fails
    [NotAuthorized] otherwise. *)
Definition requireOwnerOrRole (ownerIds : gset Z) (allowedRoles : list UserRole)
    (identity : User) : Result unit :=
  if bool_decide (u_id identity ∈ ownerIds ∨ u_role identity ∈ allowedRoles)
  then Return tt
  else Raise not_authorized.

(** The owner ids [update_property] compares with: the owner and, when one
    is assigned, the agent. *)
Definition update_owner_ids (property : Property) : gset Z :=
  {[p_owner_id property]} ∪
  match p_agent_id property with Some a => {[a]} | None => ∅ end.

(** The owner ids [delete_property] compares with. *)
Definition delete_owner_ids (property : Property) : gset Z :=
  {[p_owner_id property]}.

End ApiProperties.
Export ApiProperties.

(** ** app/auth.py: the dependency chain

    [get_current_active_user] depends on [get_current_user], and the role
    checkers depend on [get_current_active_user]; resolved from the bearer
    token of a request they run in that order. *)

Module AuthDeps.
Section AuthDeps.
Context `{JwtCodec}.

Definition resolve_active_user (token : Token) (now : datetime) : M (Bound User) :=
  current_user ← get_current_user token now;
  lift (get_current_active_user current_user).

Definition resolve_role_checker (allowed_roles : list UserRole)
    (token : Token) (now : datetime) : M (Bound User) :=
  current_user ← resolve_active_user token now;
  lift (require_roles allowed_roles current_user).

Definition resolve_admin_user (token : Token) (now : datetime) : M (Bound User) :=
  current_user ← resolve_active_user token now;
  lift (get_admin_user current_user).

Definition resolve_agent_user (token : Token) (now : datetime) : M (Bound User) :=
  current_user ← resolve_active_user token now;
  lift (get_agent_user current_user).

End AuthDeps.
End AuthDeps.
Export AuthDeps.

(** ** app/api/auth.py: registration *)

Module ApiRegister.

(** [schemas.UserCreate] *)
Record UserCreate := mkUserCreate {
  uc_email : string;
  uc_username : string;
  uc_first_name : option string;
  uc_last_name : option string;
  uc_phone_number : option string;
  uc_role : UserRole;
  uc_password : string
}.

(** [(User.email == data.email) | (User.username == data.username)] *)
Definition email_or_username_taken (user_data : UserCreate) (u : User) : Prop :=
  u_email u = uc_email user_data ∨ u_username u = uc_username user_data.

#[global] Instance email_or_username_taken_dec d u :
  Decision (email_or_username_taken d u).
Proof. unfold email_or_username_taken. apply _. Defined.

Section ApiRegister.
Context `{PasswordContext}.

(** [salt] is the salt the hasher draws, [new_id] the primary key the
    database assigns and [now] its [func.now()]. The column defaults fill
    the active flag, the verified flag and the timestamps; the new row
    comes last. *)
Definition register_user (user_data : UserCreate) (salt : string)
    (new_id : Z) (now : datetime) : M User :=
  existing_user ← gets (λ w, list_find (email_or_username_taken user_data) (users w));
  match existing_user with
  | Some _ =>
      raise (HTTPException 400 "Email or username already registered" None)
  | None =>
      let hashed_password := get_password_hash salt (uc_password user_data) in
      let db_user :=
        mkUser new_id (uc_email user_data) (uc_username user_data)
               hashed_password
               (uc_first_name user_data) (uc_last_name user_data)
               (uc_phone_number user_data) None
               (uc_role user_data) true false now now None in
      _ ← modify (with_users (λ rows : list User, (rows ++ [db_user])%list));
      mret db_user
  end.

End ApiRegister.
End ApiRegister.
Export ApiRegister.

(** ** app/api/users.py: the profile update *)

Module ApiUsers.

#[global] Instance User_eq_dec : EqDecision User.
Proof. solve_decision. Defined.

(** The fields of [schemas.UserUpdate] that were set in the request
    ([dict(exclude_unset=True)]): [None] is an unset field, [Some None] a
    field set to null. *)
Record UserUpdate := mkUserUpdate {
  uu_first_name : option (option string);
  uu_last_name : option (option string);
  uu_phone_number : option (option string);
  uu_profile_image_url : option (option string)
}.

(** The [setattr] loop. *)
Definition setattr_profile (upd : UserUpdate) (u : User) : User :=
  mkUser (u_id u) (u_email u) (u_username u) (u_hashed_password u)
         (default (u_first_name u) (uu_first_name upd))
         (default (u_last_name u) (uu_last_name upd))
         (default (u_phone_number u) (uu_phone_number upd))
         (default (u_profile_image_url u) (uu_profile_image_url upd))
         (u_role u) (u_is_active u) (u_is_verified u)
         (u_created_at u) (u_updated_at u) (u_last_login u).

(** The UPDATE of a changed row sets [updated_at]. *)
Definition touch (t : datetime) (u : User) : User :=
  mkUser (u_id u) (u_email u) (u_username u) (u_hashed_password u)
         (u_first_name u) (u_last_name u) (u_phone_number u)
         (u_profile_image_url u) (u_role u) (u_is_active u)
         (u_is_verified u) (u_created_at u) t (u_last_login u).

(** The commit writes the row only when an attribute has a new value. *)
Definition update_current_user (user_update : UserUpdate)
    (current_user : Bound User) (now : datetime) : M User :=
  let '(i, user) := current_user in
  let changed := setattr_profile user_update user in
  let user := if bool_decide (changed = user) then user else touch now changed in
  _ ← modify (with_users (<[i := user]>));
  mret user.

(** The route, with its [Depends(get_current_user)] resolved from the
    bearer token. *)
Definition update_current_user_route `{JwtCodec} (token : Token)
    (user_update : UserUpdate) (now : datetime) : M User :=
  current_user ← get_current_user token now;
  update_current_user user_update current_user now.

End ApiUsers.
Export ApiUsers.

(** ** The uniqueness the [users] table declares

    [unique=True] on [username] and on [email]: no two rows share a
    username, and no two rows share an email. *)

Module Invariants.

Definition unique_credentials (rows : list User) : Prop :=
  NoDup (u_username <$> rows) ∧ NoDup (u_email <$> rows).

(** The columns of a user row that say who the user is and what it may
    do. *)
Definition identity (u : User) : Z * string * string * UserRole * bool * bool :=
  (u_id u, u_username u, u_email u, u_role u, u_is_active u, u_is_verified u).

(** The columns of a property row that the ownership checks read. *)
Definition ownership (p : Property) : Z * Z * option Z :=
  (p_id p, p_owner_id p, p_agent_id p).

(** The primary key of [properties]. *)
Definition unique_property_ids (rows : list Property) : Prop :=
  NoDup (p_id <$> rows).

(** Row [i] is the only row of the table whose username or email is [s]:
    whatever the order in which a query returns the rows, its first match
    for [s] is that row. *)
Definition only_match (s : string) (rows : list User) (i : nat) : Prop :=
  ∀ j other, rows !! j = Some other → username_or_email s other → j = i.

(** The range of Python's [datetime], in microseconds from the epoch:
    from the first instant of year 1 to the last of year 9999. *)
Definition datetime_min : datetime := -62135596800 * 1000000.
Definition datetime_max : datetime := 253402300800 * 1000000 - 1.

Definition representable (t : datetime) : Prop :=
  datetime_min ≤ t ≤ datetime_max.

End Invariants.
Export Invariants.

(** ** What the hasher promises

    A digest made from a password verifies against that password. *)

Module HasherLaws.

Class PasswordContextLaws `{PasswordContext} := {
  verify_hash :
    ∀ salt password : string,
      pwd_verify password (pwd_hash salt password) = Return true
}.

End HasherLaws.
Export HasherLaws.

(** ** Executable instances of the library interfaces

    Small stand-ins for passlib and python-jose that behave as the
    libraries do at their interface: they let the handlers be run on
    concrete requests. Nothing below is secure, and no theorem about the
    application depends on how they compute. *)

Module Reference.

(** A digest is [$2b$<password>$<salt>]. As passlib's [CryptContext.verify]
    does, [verify] raises [UnknownHashError] for a string that none of the
    context's schemes identifies. *)
Definition ref_hash (salt password : string) : string :=
  "$2b$" +:+ password +:+ "$" +:+ salt.

Definition ref_verify (plain digest : string) : Result bool :=
  if String.prefix "$2b$" digest
  then Return (String.prefix ("$2b$" +:+ plain +:+ "$") digest)
  else Raise UnknownHashError.

Definition ref_pwd : PasswordContext :=
  {| pwd_hash := ref_hash; pwd_verify := ref_verify |}.

(** A token is either a string without the structure of a JWT, or an
    algorithm name, a claim set and a signature segment. *)
Inductive RefToken :=
| Unstructured (s : string)
| Signed (alg : string) (claims : gmap string Claim) (signature : string).

Definition ref_sign (key alg : string) (claims : gmap string Claim) : string :=
  key +:+ "/" +:+ alg +:+ "/" +:+
  match claims !! "sub" with Some (CStr s) => s | _ => "" end.

(** [jwt.encode] turns a datetime in a time claim into whole seconds. *)
Definition intdate (k : string) (claims : gmap string Claim) : gmap string Claim :=
  match claims !! k with
  | Some (CDatetime t) => <[k := CInt (timegm t)]> claims
  | _ => claims
  end.

Definition ref_encode (claims : gmap string Claim) (key alg : string) : RefToken :=
  let claims := intdate "nbf" (intdate "iat" (intdate "exp" claims)) in
  Signed alg claims (ref_sign key alg claims).

(** Structure first, then the signature, then the expiry. *)
Definition ref_decode (token : RefToken) (key : string) (algorithms : list string)
    (now : datetime) : Result (gmap string Claim) :=
  match token with
  | Unstructured _ => Raise (JoseError MalformedToken)
  | Signed alg claims signature =>
      if bool_decide (alg ∈ algorithms ∧ signature = ref_sign key alg claims)
      then
        match claims !! "exp" with
        | None => Return claims
        | Some (CInt e) =>
            if bool_decide (e < timegm now)
            then Raise (JoseError ExpiredSignatureError)
            else Return claims
        | Some _ => Raise (JoseError JWTClaimsError)
        end
      else Raise (JoseError SignatureVerificationFailed)
  end.

Definition ref_jwt : JwtCodec :=
  {| Token := RefToken; jwt_encode := ref_encode; jwt_decode := ref_decode |}.

(** One flipped bit in the first character of a string, and a token with
    its signature segment so changed. *)
Definition flip_bit (s : string) : string :=
  match s with
  | EmptyString => EmptyString
  | String (Ascii.Ascii b0 b1 b2 b3 b4 b5 b6 b7) rest =>
      String (Ascii.Ascii (negb b0) b1 b2 b3 b4 b5 b6 b7) rest
  end.

Definition tamper (token : RefToken) : RefToken :=
  match token with
  | Unstructured s => Unstructured s
  | Signed alg claims signature => Signed alg claims (flip_bit signature)
  end.

(** A small store: an active client, a disabled agent, and a row whose
    digest column does not hold a digest. *)
Definition alice : User :=
  mkUser 1 "alice@example.com" "alice" (ref_hash "s1" "pw")
         None None None None CLIENT true false 0 0 None.

Definition bob : User :=
  mkUser 2 "bob@example.com" "bob" (ref_hash "s2" "hunter2")
         (Some "Bob") None None None AGENT false true 0 0 None.

Definition carol : User :=
  mkUser 3 "carol@example.com" "carol" "not-a-digest"
         None None None None ADMIN true true 0 0 None.

Definition house : Property := mkProperty 10 7 None "House" DRAFT.

Definition world0 : World := mkWorld [alice; bob; carol] [house] [].

(** An issuance time, in microseconds, and durations from it. *)
Definition t0 : datetime := 1700000000 * 1000000.
Definition seconds (n : Z) : timedelta := n * 1000000.

(** Alice's and Bob's thirty-minute tokens, issued at [t0]. *)
Definition alice_token : RefToken :=
  @create_access_token ref_jwt {["sub" := CStr "alice"]} (Some (minutes 30)) t0.

Definition bob_token : RefToken :=
  @create_access_token ref_jwt {["sub" := CStr "bob"]} (Some (minutes 30)) t0.

End Reference.

(** ** More requests for the reference store *)

Module Scenario.
Import Reference.

(** A registration as administrator, and the row it creates. *)
Definition dave_data : UserCreate :=
  mkUserCreate "dave@example.com" "dave" None None None ADMIN "pw-d".

Definition dave : User :=
  mkUser 4 "dave@example.com" "dave" (ref_hash "s4" "pw-d")
         None None None None ADMIN true false t0 t0 None.

(** A registration whose username is the email of [alice]. *)
Definition mallory_data : UserCreate :=
  mkUserCreate "mallory@example.com" "alice@example.com" None None None
               CLIENT "pw-m".

Definition mallory : User :=
  mkUser 5 "mallory@example.com" "alice@example.com" (ref_hash "s5" "pw-m")
         None None None None CLIENT true false t0 t0 None.

(** A property of user 7 with [bob], user 2, as its agent. *)
Definition flat : Property := mkProperty 11 7 (Some 2) "Flat" ACTIVE.

Definition world1 : World := mkWorld [alice; bob; carol] [house; flat] [].

(** The owner of both properties, bound to no row of the store. *)
Definition olga : User :=
  mkUser 7 "olga@example.com" "olga" "" None None None None
         CLIENT true true 0 0 None.

(** A token for a subject that no row has. *)
Definition zed_token : RefToken :=
  @create_access_token ref_jwt {["sub" := CStr "zed"]} (Some (minutes 30)) t0.

End Scenario.

(** ** Running the monads *)

Lemma run_bind {A B} (m : M A) (f : A → M B) (w : World) :
  (m ≫= f) w = match m w with
               | (Return a, w') => f a w'
               | (Raise e, w') => (Raise e, w')
               end.
Proof. reflexivity. Qed.

Lemma run_bind_return {A B} (m : M A) (f : A → M B) (w w' : World) (a : A) :
  m w = (Return a, w') → (m ≫= f) w = f a w'.
Proof. intros Hm. rewrite run_bind, Hm. reflexivity. Qed.

Lemma run_bind_raise {A B} (m : M A) (f : A → M B) (w w' : World) (e : Exception) :
  m w = (Raise e, w') → (m ≫= f) w = (Raise e, w').
Proof. intros Hm. rewrite run_bind, Hm. reflexivity. Qed.

Ltac run :=
  unfold mbind, M_bind, Result_bind, mret, M_ret, Result_ret,
         gets, lift, raise, modify; cbn beta iota.

(** ** The authenticator *)

Section Authenticator.
Context {pwd : PasswordContext} {jwt : JwtCodec}.


Lemma authenticate_user_known (db : list User) (username password : string)
    (i : nat) (user : User) :
  list_find (username_or_email username) db = Some (i, user) →
  authenticate_user db username password =
    match verify_password password (u_hashed_password user) with
    | Return true => Return (Some user)
    | Return false => Return None
    | Raise e => Raise e
    end.
Proof.
  intros Hsome. unfold authenticate_user. rewrite Hsome. run.
  destruct (verify_password _ _) as [[|]|e]; reflexivity.
Qed.


(** C5, as the code has it. [verify_password] is the context's [verify]
    and nothing more: it returns false exactly when the context returns
    false, and an exception the context raises for a digest comes out of
    [verify_password], and out of [authenticate_user] for a user whose
    stored digest raises it, unchanged. *)
Theorem verify_password_propagates (plain digest : string) :
  verify_password plain digest = pwd_verify plain digest ∧
  (verify_password plain digest = Return false ↔ pwd_verify plain digest = Return false) ∧
  (∀ e, pwd_verify plain digest = Raise e → verify_password plain digest = Raise e) ∧
  (∀ e db username i user,
     list_find (username_or_email username) db = Some (i, user) →
     u_hashed_password user = digest →
     pwd_verify plain digest = Raise e →
     authenticate_user db username plain = Raise e).
Proof.
  split_and!; [reflexivity | reflexivity | tauto |].
  intros e db username i user Hfind <- Hraise.
  rewrite (authenticate_user_known _ _ _ _ _ Hfind).
  unfold verify_password. rewrite Hraise. reflexivity.
Qed.

End Authenticator.

(** ** The session resolver *)

Section Resolver.
Context {pwd : PasswordContext} {jwt : JwtCodec}.

Lemma token_username_jose_error (token : Token) (now : datetime) (e : JWTError) :
  jwt_decode token SECRET_KEY [ALGORITHM] now = Raise (JoseError e) →
  token_username token now = Raise credentials_exception.
Proof. intros Hdec. unfold token_username. rewrite Hdec. reflexivity. Qed.

Lemma token_username_sub (token : Token) (now : datetime)
    (payload : gmap string Claim) (subject : string) :
  jwt_decode token SECRET_KEY [ALGORITHM] now = Return payload →
  payload !! "sub" = Some (CStr subject) →
  token_username token now = Return subject.
Proof. intros Hdec Hsub. unfold token_username. rewrite Hdec, Hsub. reflexivity. Qed.

Lemma get_current_user_rejected (token : Token) (now : datetime) (w : World)
    (e : Exception) :
  token_username token now = Raise e →
  get_current_user token now w = (Raise e, w).
Proof. intros Hname. unfold get_current_user. run. rewrite Hname. reflexivity. Qed.

Lemma get_current_user_found (token : Token) (now : datetime) (w : World)
    (subject : string) (i : nat) (user : User) :
  token_username token now = Return subject →
  list_find (username_or_email subject) (users w) = Some (i, user) →
  get_current_user token now w =
    (Return (i, set_last_login now user),
     with_users (<[i := set_last_login now user]>) w).
Proof.
  intros Hname Hfind. unfold get_current_user. run.
  rewrite Hname, Hfind. reflexivity.
Qed.

Lemma get_current_user_gone (token : Token) (now : datetime) (w : World)
    (subject : string) :
  token_username token now = Return subject →
  list_find (username_or_email subject) (users w) = None →
  get_current_user token now w = (Raise credentials_exception, w).
Proof.
  intros Hname Hfind. unfold get_current_user. run.
  rewrite Hname, Hfind. reflexivity.
Qed.

(** C2, as the code has it. Whichever [JWTError] the decoding of the
    presented token raises (signature mismatch, malformed structure,
    expiry in the past, a refused claim), [get_current_user] raises the
    one [credentials_exception], a 401 with a fixed detail, and writes
    nothing: the reason is not passed on to the caller. *)
Theorem get_current_user_rejection_generic
    (token : Token) (now : datetime) (w : World) (e : JWTError) :
  jwt_decode token SECRET_KEY [ALGORITHM] now = Raise (JoseError e) →
  get_current_user token now w = (Raise credentials_exception, w).
Proof.
  intros Hdec. apply get_current_user_rejected.
  exact (token_username_jose_error _ _ _ Hdec).
Qed.

End Resolver.

(** ** Token issuance *)

Section Issuance.
Context {pwd : PasswordContext} {jwt : JwtCodec}.

Lemma create_access_token_explicit (data : gmap string Claim)
    (ttl : timedelta) (now : datetime) :
  ttl ≠ 0 →
  create_access_token data (Some ttl) now =
    jwt_encode (<["exp" := CDatetime (now + ttl)]> data) SECRET_KEY ALGORITHM.
Proof.
  intros Httl. unfold create_access_token.
  rewrite bool_decide_eq_true_2 by exact Httl. reflexivity.
Qed.

Lemma minutes_30_nonzero : minutes ACCESS_TOKEN_EXPIRE_MINUTES ≠ 0.
Proof. discriminate. Qed.

(** C4, as the code has it. Called without [expires_delta],
    [create_access_token] sets the expiry a quarter of an hour after the
    time of the call. The thirty minutes of [ACCESS_TOKEN_EXPIRE_MINUTES]
    are what the login and the refresh endpoints pass explicitly: the
    tokens they return expire thirty minutes after the call. *)
Theorem create_access_token_default_expiry
    (data : gmap string Claim) (now : datetime)
    (username password : string) (current_user : Bound User)
    (w w' : World) (out : TokenOut Token) :
  login_for_access_token username password now w = (Return out, w') →
  create_access_token data None now =
    jwt_encode (<["exp" := CDatetime (now + minutes 15)]> data)
               SECRET_KEY ALGORITHM ∧
  (∃ user, authenticate_user (users w) username password = Return (Some user) ∧
     access_token out =
       jwt_encode (<["exp" := CDatetime (now + minutes 30)]>
                     {["sub" := CStr (u_username user)]})
                  SECRET_KEY ALGORITHM) ∧
  refresh_access_token current_user now w =
    (Return (mkTokenOut
               (jwt_encode (<["exp" := CDatetime (now + minutes 30)]>
                              {["sub" := CStr (u_username current_user.2)]})
                           SECRET_KEY ALGORITHM)
               "bearer"), w).
Proof.
  intros Hlogin. split_and!.
  - reflexivity.
  - revert Hlogin. unfold login_for_access_token. run.
    destruct (authenticate_user _ _ _) as [[user|]|e]; [|discriminate..].
    destruct (u_is_active user); cbn; [|discriminate].
    intros [= <- <-]. exists user. split; [reflexivity|].
    cbn. apply create_access_token_explicit, minutes_30_nonzero.
  - unfold refresh_access_token. run.
    rewrite create_access_token_explicit by apply minutes_30_nonzero.
    reflexivity.
Qed.

End Issuance.

(** ** Issuing, then resolving *)

Section RoundTrip.
Context {pwd : PasswordContext} {jwt : JwtCodec} {laws : JwtCodecLaws}.

Lemma timegm_mono (t t' : datetime) : t ≤ t' → timegm t ≤ timegm t'.
Proof. intros Hle. unfold timegm. apply Z.div_le_mono; lia. Qed.

Lemma issued_token_username (subject : string) (issued : datetime)
    (ttl : timedelta) (now : datetime) :
  ttl ≠ 0 →
  token_username
    (create_access_token {["sub" := CStr subject]} (Some ttl) issued) now =
  if bool_decide (timegm (issued + ttl) < timegm now)
  then Raise credentials_exception
  else Return subject.
Proof.
  intros Httl. rewrite create_access_token_explicit by exact Httl.
  unfold token_username. rewrite decode_encode by reflexivity.
  case_bool_decide; [reflexivity|].
  rewrite lookup_insert_ne by discriminate.
  rewrite lookup_singleton_eq. reflexivity.
Qed.

(** C3, as the code has it. For a subject that the store finds a user
    for, an issuance time within the range of [datetime] and a ttl other
    than zero that keeps [issued + ttl] within that range (beyond it the
    source raises [OverflowError] and issues no token), the token issued
    at [issued] resolves at every time before [issued + ttl] to that
    user, with its last login set to the time of the resolution; and at
    every time whose whole second is past that of [issued + ttl] it is
    rejected, with the same [credentials_exception] as every other
    unusable token. *)
Theorem issued_token_resolves_until_expiry
    (subject : string) (w : World) (i : nat) (user : User)
    (issued : datetime) (ttl : timedelta) :
  ttl ≠ 0 →
  representable issued → representable (issued + ttl) →
  list_find (username_or_email subject) (users w) = Some (i, user) →
  let token := create_access_token {["sub" := CStr subject]} (Some ttl) issued in
  (∀ now, now < issued + ttl →
     get_current_user token now w =
       (Return (i, set_last_login now user),
        with_users (<[i := set_last_login now user]>) w)) ∧
  (∀ now, timegm (issued + ttl) < timegm now →
     get_current_user token now w = (Raise credentials_exception, w)).
Proof.
  intros Httl _ _ Hfind token. split; intros now Hnow.
  - apply get_current_user_found with (subject := subject); [|exact Hfind].
    unfold token. rewrite issued_token_username by exact Httl.
    rewrite bool_decide_eq_false_2; [reflexivity|].
    assert (timegm now ≤ timegm (issued + ttl)) by (apply timegm_mono; lia). lia.
  - apply get_current_user_rejected.
    unfold token. rewrite issued_token_username by exact Httl.
    rewrite bool_decide_eq_true_2 by exact Hnow. reflexivity.
Qed.

End RoundTrip.

(** ** What a resolution writes *)

Section ResolverEffects.
Context {pwd : PasswordContext} {jwt : JwtCodec}.

Lemma get_current_user_inv (token : Token) (now : datetime) (w w' : World)
    (i : nat) (user' : User) :
  get_current_user token now w = (Return (i, user'), w') →
  ∃ subject user,
    token_username token now = Return subject ∧
    list_find (username_or_email subject) (users w) = Some (i, user) ∧
    user' = set_last_login now user ∧
    w' = with_users (<[i := user']>) w.
Proof.
  unfold get_current_user. run.
  destruct (token_username token now) as [subject|e]; [|discriminate].
  destruct (list_find _ _) as [[j user]|] eqn:Hfind; [|discriminate].
  intros [= -> <- <-]. exists subject, user. done.
Qed.

(** C9. When [get_current_user] returns a user, that user is a row of the
    store with its last login set to the time of the call; the row has
    been written back before the return; and the id, username, email,
    password hash, role, active flag and verified flag of the user are
    those of the row as it was. No other row, and nothing else of the
    world, has changed. *)
Theorem get_current_user_touches_last_login
    (token : Token) (now : datetime) (w w' : World) (i : nat) (user' : User) :
  get_current_user token now w = (Return (i, user'), w') →
  ∃ user,
    users w !! i = Some user ∧
    u_last_login user' = Some now ∧
    users w' !! i = Some user' ∧
    (u_id user' = u_id user ∧
     u_username user' = u_username user ∧
     u_email user' = u_email user ∧
     u_hashed_password user' = u_hashed_password user ∧
     u_role user' = u_role user ∧
     u_is_active user' = u_is_active user ∧
     u_is_verified user' = u_is_verified user) ∧
    (∀ j, j ≠ i → users w' !! j = users w !! j) ∧
    properties w' = properties w ∧
    stdout w' = stdout w.
Proof.
  intros (subject & user & _ & Hfind & -> & ->)%get_current_user_inv.
  apply list_find_Some in Hfind as (Hrow & _ & _).
  exists user. split_and!; try reflexivity; [exact Hrow | |].
  - cbn. apply list_lookup_insert_eq. eapply lookup_lt_Some, Hrow.
  - intros j Hj. cbn. apply list_lookup_insert_ne. congruence.
Qed.


End ResolverEffects.

(** ** Password change and reset request *)

Section Passwords.
Context {pwd : PasswordContext} {jwt : JwtCodec}.


(** C7. The response of [forgot_password] is the same fixed
    acknowledgment for every email and every store, whether or not the
    email is that of a user; the tables are not written. *)
Theorem forgot_password_same_acknowledgment
    (w1 w2 : World) (email1 email2 : string) :
  (forgot_password email1 w1).1 = Return reset_acknowledgment ∧
  (forgot_password email1 w1).1 = (forgot_password email2 w2).1 ∧
  users (forgot_password email1 w1).2 = users w1 ∧
  properties (forgot_password email1 w1).2 = properties w1.
Proof.
  assert (Hack : ∀ email w,
    (forgot_password email w).1 = Return reset_acknowledgment ∧
    users (forgot_password email w).2 = users w ∧
    properties (forgot_password email w).2 = properties w).
  { intros email w. unfold forgot_password. run.
    destruct (list_find _ _) as [[j user]|]; done. }
  destruct (Hack email1 w1) as (H1 & Hu & Hp), (Hack email2 w2) as (H2 & _ & _).
  split_and!; [exact H1 | congruence | exact Hu | exact Hp].
Qed.

End Passwords.

(** ** The ownership checks *)

Section Guards.

Lemma requireOwnerOrRole_Return (ownerIds : gset Z) (allowedRoles : list UserRole)
    (identity : User) :
  requireOwnerOrRole ownerIds allowedRoles identity = Return tt ↔
  u_id identity ∈ ownerIds ∨ u_role identity ∈ allowedRoles.
Proof.
  unfold requireOwnerOrRole. case_bool_decide; split; try done.
Qed.

Lemma requireOwnerOrRole_Raise (ownerIds : gset Z) (allowedRoles : list UserRole)
    (identity : User) :
  requireOwnerOrRole ownerIds allowedRoles identity = Raise not_authorized ↔
  ¬ (u_id identity ∈ ownerIds ∨ u_role identity ∈ allowedRoles).
Proof.
  unfold requireOwnerOrRole. case_bool_decide; split; try done.
Qed.

Lemma update_property_denied_spec (property : Property) (identity : User) :
  update_property_denied property identity = true ↔
  ¬ (u_id identity ∈ update_owner_ids property ∨ u_role identity ∈ [ADMIN]).
Proof.
  unfold update_property_denied, update_owner_ids.
  rewrite !andb_true_iff, !bool_decide_eq_true, list_elem_of_singleton,
    elem_of_union, elem_of_singleton.
  destruct (p_agent_id property) as [a|].
  - rewrite elem_of_singleton. intuition congruence.
  - rewrite elem_of_empty. intuition congruence.
Qed.

Lemma delete_property_denied_spec (property : Property) (identity : User) :
  delete_property_denied property identity = true ↔
  ¬ (u_id identity ∈ delete_owner_ids property ∨ u_role identity ∈ [ADMIN]).
Proof.
  unfold delete_property_denied, delete_owner_ids.
  rewrite !andb_true_iff, !bool_decide_eq_true, list_elem_of_singleton,
    elem_of_singleton.
  intuition congruence.
Qed.

Lemma requireOwnerOrRole_update (property : Property) (identity : User) :
  requireOwnerOrRole (update_owner_ids property) [ADMIN] identity =
  if update_property_denied property identity
  then Raise not_authorized else Return tt.
Proof.
  destruct (update_property_denied property identity) eqn:Hdenied.
  - apply requireOwnerOrRole_Raise, update_property_denied_spec, Hdenied.
  - apply requireOwnerOrRole_Return.
    destruct (decide (u_id identity ∈ update_owner_ids property
                      ∨ u_role identity ∈ [ADMIN])) as [Hyes|Hno]; [exact Hyes|].
    apply update_property_denied_spec in Hno. congruence.
Qed.

Lemma requireOwnerOrRole_delete (property : Property) (identity : User) :
  requireOwnerOrRole (delete_owner_ids property) [ADMIN] identity =
  if delete_property_denied property identity
  then Raise not_authorized else Return tt.
Proof.
  destruct (delete_property_denied property identity) eqn:Hdenied.
  - apply requireOwnerOrRole_Raise, delete_property_denied_spec, Hdenied.
  - apply requireOwnerOrRole_Return.
    destruct (decide (u_id identity ∈ delete_owner_ids property
                      ∨ u_role identity ∈ [ADMIN])) as [Hyes|Hno]; [exact Hyes|].
    apply delete_property_denied_spec in Hno. congruence.
Qed.

Lemma update_property_found (property_id : Z) (upd : PropertyUpdate)
    (current_user : Bound User) (w : World) (i : nat) (property : Property) :
  list_find (λ p, p_id p = property_id) (properties w) = Some (i, property) →
  (update_property property_id upd current_user w).1 =
  if update_property_denied property current_user.2
  then Raise not_authorized else Return (apply_update upd property).
Proof.
  intros Hfind. unfold update_property. run. rewrite Hfind.
  destruct (update_property_denied _ _); reflexivity.
Qed.

Lemma delete_property_found (property_id : Z)
    (current_user : Bound User) (w : World) (i : nat) (property : Property) :
  list_find (λ p, p_id p = property_id) (properties w) = Some (i, property) →
  (delete_property property_id current_user w).1 =
  if delete_property_denied property current_user.2
  then Raise not_authorized
  else Return {["detail" := "Property deleted successfully"]}.
Proof.
  intros Hfind. unfold delete_property. run. rewrite Hfind.
  destruct (delete_property_denied _ _); reflexivity.
Qed.

(** C8. The guard of the specification succeeds exactly when the
    identity's id is among the owner ids or its role among the allowed
    roles, and fails [not_authorized] otherwise. The check of
    [update_property] is that guard for the owner and the assigned agent
    of the property and the role [ADMIN], the check of [delete_property]
    is that guard for the owner alone and the role [ADMIN]. For a property
    owned by 7 with no agent, both handlers let the user with id 7 through
    whatever its role, and refuse the user with id 8 exactly when its role
    is not [ADMIN]. *)
Theorem owner_or_role_guard
    (ownerIds : gset Z) (allowedRoles : list UserRole)
    (property_id : Z) (upd : PropertyUpdate) (current_user : Bound User)
    (w : World) (i : nat) (property : Property) :
  list_find (λ p, p_id p = property_id) (properties w) = Some (i, property) →
  let identity := current_user.2 in
  let updated := (update_property property_id upd current_user w).1 in
  let deleted := (delete_property property_id current_user w).1 in
  (requireOwnerOrRole ownerIds allowedRoles identity = Return tt ↔
     u_id identity ∈ ownerIds ∨ u_role identity ∈ allowedRoles) ∧
  (requireOwnerOrRole ownerIds allowedRoles identity = Raise not_authorized ↔
     ¬ (u_id identity ∈ ownerIds ∨ u_role identity ∈ allowedRoles)) ∧
  updated =
    (_ ← requireOwnerOrRole (update_owner_ids property) [ADMIN] identity;
     Return (apply_update upd property)) ∧
  deleted =
    (_ ← requireOwnerOrRole (delete_owner_ids property) [ADMIN] identity;
     Return {["detail" := "Property deleted successfully"]}) ∧
  (p_owner_id property = 7 → p_agent_id property = None →
   (u_id identity = 7 →
      updated = Return (apply_update upd property) ∧
      deleted = Return {["detail" := "Property deleted successfully"]}) ∧
   (u_id identity = 8 →
      (updated = Raise not_authorized ↔ u_role identity ≠ ADMIN) ∧
      (deleted = Raise not_authorized ↔ u_role identity ≠ ADMIN))).
Proof.
  intros Hfind identity updated deleted.
  assert (Hupd := update_property_found _ upd current_user _ _ _ Hfind).
  assert (Hdel := delete_property_found _ current_user _ _ _ Hfind).
  fold updated identity in Hupd. fold deleted identity in Hdel.
  split_and!.
  - apply requireOwnerOrRole_Return.
  - apply requireOwnerOrRole_Raise.
  - rewrite Hupd, requireOwnerOrRole_update.
    destruct (update_property_denied _ _); reflexivity.
  - rewrite Hdel, requireOwnerOrRole_delete.
    destruct (delete_property_denied _ _); reflexivity.
  - intros Howner Hagent. rewrite Hupd, Hdel.
    unfold update_property_denied, delete_property_denied.
    rewrite Howner, Hagent. split; intros ->; cbn.
    + done.
    + destruct (u_role identity); cbn; split; split; done.
Qed.

End Guards.

(** ** The reference codec obeys the codec laws *)

Section ReferenceLaws.
Import Reference.

Lemma intdate_absent (k : string) (claims : gmap string Claim) :
  claims !! k = None → intdate k claims = claims.
Proof. intros Hk. unfold intdate. rewrite Hk. reflexivity. Qed.

Lemma intdate_exp (data : gmap string Claim) (e : datetime) :
  intdate "exp" (<["exp" := CDatetime e]> data) = <["exp" := CInt (timegm e)]> data.
Proof.
  unfold intdate. rewrite lookup_insert_eq. apply insert_insert_eq.
Qed.

Lemma ref_decode_encode (data : gmap string Claim) (e : datetime)
    (key alg : string) (now : datetime) :
  data !! "iat" = None → data !! "nbf" = None →
  ref_decode (ref_encode (<["exp" := CDatetime e]> data) key alg) key [alg] now
  = if bool_decide (timegm e < timegm now)
    then Raise (JoseError ExpiredSignatureError)
    else Return (<["exp" := CInt (timegm e)]> data).
Proof.
  intros Hiat Hnbf. unfold ref_encode. rewrite intdate_exp.
  rewrite (intdate_absent "iat")
    by (rewrite lookup_insert_ne by discriminate; assumption).
  rewrite (intdate_absent "nbf")
    by (rewrite lookup_insert_ne by discriminate; assumption).
  unfold ref_decode.
  rewrite bool_decide_eq_true_2 by (split; [apply list_elem_of_singleton|]; reflexivity).
  rewrite lookup_insert_eq. reflexivity.
Qed.

Lemma ref_laws : @JwtCodecLaws ref_jwt.
Proof. constructor. exact ref_decode_encode. Qed.

End ReferenceLaws.

(** ** The theorems at work on the reference store *)

Section Runs.
Import Reference.
#[local] Existing Instance ref_pwd.
#[local] Existing Instance ref_jwt.
#[local] Existing Instance ref_laws.


(** C2, as stated, fails: a token with one bit of its signature flipped,
    a string that is no token, and an expired token are refused by the
    codec for three different reasons, and [get_current_user] gives the
    same outcome for all three. *)
Lemma rejection_reasons_not_distinct :
  let soon := t0 + minutes 10 in
  let late := t0 + minutes 31 in
  jwt_decode (tamper alice_token) SECRET_KEY [ALGORITHM] soon
    = Raise (JoseError SignatureVerificationFailed) ∧
  jwt_decode (Unstructured "abc") SECRET_KEY [ALGORITHM] soon
    = Raise (JoseError MalformedToken) ∧
  jwt_decode alice_token SECRET_KEY [ALGORITHM] late
    = Raise (JoseError ExpiredSignatureError) ∧
  get_current_user (tamper alice_token) soon world0
    = get_current_user (Unstructured "abc") soon world0 ∧
  get_current_user (Unstructured "abc") soon world0
    = get_current_user alice_token late world0.
Proof. split_and!; vm_compute; reflexivity. Qed.

Lemma get_current_user_rejection_generic_witness :
  jwt_decode alice_token SECRET_KEY [ALGORITHM] (t0 + minutes 31)
    = Raise (JoseError ExpiredSignatureError) ∧
  get_current_user alice_token (t0 + minutes 31) world0
    = (Raise credentials_exception, world0).
Proof.
  assert (Hdec : jwt_decode alice_token SECRET_KEY [ALGORITHM] (t0 + minutes 31)
                 = Raise (JoseError ExpiredSignatureError))
    by (vm_compute; reflexivity).
  split; [exact Hdec|].
  exact (get_current_user_rejection_generic _ _ world0 _ Hdec).
Defined.

(** C3, as stated, fails: with a ttl of zero the token still resolves a
    minute after [issued + ttl]; a thirty-minute token still resolves half
    a second after its expiry; and once it is refused, the outcome is the
    one a string that is no token gets. *)
Lemma expiry_not_as_stated :
  (get_current_user
     (create_access_token {["sub" := CStr "alice"]} (Some 0) t0)
     (t0 + 0 + minutes 1) world0).1
    = Return (0%nat, set_last_login (t0 + 0 + minutes 1) alice) ∧
  (get_current_user alice_token (t0 + minutes 30 + 500000) world0).1
    = Return (0%nat, set_last_login (t0 + minutes 30 + 500000) alice) ∧
  get_current_user alice_token (t0 + minutes 31) world0
    = get_current_user (Unstructured "abc") (t0 + minutes 31) world0.
Proof. split_and!; vm_compute; reflexivity. Qed.

Lemma issued_token_resolves_until_expiry_witness :
  minutes 30 ≠ 0 ∧
  representable t0 ∧ representable (t0 + minutes 30) ∧
  list_find (username_or_email "alice") (users world0) = Some (0%nat, alice) ∧
  t0 + minutes 10 < t0 + minutes 30 ∧
  timegm (t0 + minutes 30) < timegm (t0 + minutes 31) ∧
  (get_current_user alice_token (t0 + minutes 10) world0).1
    = Return (0%nat, set_last_login (t0 + minutes 10) alice) ∧
  get_current_user alice_token (t0 + minutes 31) world0
    = (Raise credentials_exception, world0).
Proof.
  assert (H1 : minutes 30 ≠ 0) by discriminate.
  assert (H2 : list_find (username_or_email "alice") (users world0)
               = Some (0%nat, alice)) by (vm_compute; reflexivity).
  assert (H3 : t0 + minutes 10 < t0 + minutes 30) by reflexivity.
  assert (H4 : timegm (t0 + minutes 30) < timegm (t0 + minutes 31)) by reflexivity.
  assert (R1 : representable t0) by (split; discriminate).
  assert (R2 : representable (t0 + minutes 30)) by (split; discriminate).
  destruct (issued_token_resolves_until_expiry "alice" world0 0%nat alice
              t0 (minutes 30) H1 R1 R2 H2) as [Hbefore Hafter].
  split_and!; [assumption.. | | exact (Hafter _ H4)].
  unfold alice_token. rewrite (Hbefore _ H3). reflexivity.
Defined.

(** C4, as stated, fails: the token issued without a ttl carries the
    expiry [t0] plus fifteen minutes, which is not [t0] plus thirty, and
    sixteen minutes after [t0] it is refused. *)
Lemma default_ttl_is_not_thirty_minutes :
  let token := create_access_token {["sub" := CStr "alice"]} None t0 in
  (payload ← jwt_decode token SECRET_KEY [ALGORITHM] t0; Return (payload !! "exp"))
    = Return (Some (CInt (timegm (t0 + minutes 15)))) ∧
  timegm (t0 + minutes 15) ≠ timegm (t0 + minutes 30) ∧
  get_current_user token (t0 + minutes 16) world0
    = (Raise credentials_exception, world0).
Proof. split_and!; vm_compute; (reflexivity || discriminate). Qed.

Lemma create_access_token_default_expiry_witness :
  (login_for_access_token "alice" "pw" t0 world0).1
    = Return (mkTokenOut alice_token "bearer") ∧
  create_access_token {["sub" := CStr "alice"]} None t0
    = jwt_encode (<["exp" := CDatetime (t0 + minutes 15)]> {["sub" := CStr "alice"]})
                 SECRET_KEY ALGORITHM.
Proof.
  assert (Hlogin : login_for_access_token "alice" "pw" t0 world0
                   = (Return (mkTokenOut alice_token "bearer"), world0))
    by (vm_compute; reflexivity).
  split; [rewrite Hlogin; reflexivity|].
  exact (proj1 (create_access_token_default_expiry
                  {["sub" := CStr "alice"]} t0 "alice" "pw" (0%nat, alice)
                  world0 world0 _ Hlogin)).
Defined.

(** C5, as stated, fails: ["not-a-digest"] is no output of the hasher, and
    verifying against it raises instead of returning false. *)
Lemma verify_password_raises_on_malformed_digest :
  (∀ salt password, get_password_hash salt password ≠ "not-a-digest") ∧
  verify_password "pw" "not-a-digest" = Raise UnknownHashError ∧
  verify_password "pw" "not-a-digest" ≠ Return false.
Proof. split_and!; [intros salt password | reflexivity |]; discriminate. Qed.

Lemma verify_password_propagates_witness :
  list_find (username_or_email "carol") (users world0) = Some (2%nat, carol) ∧
  pwd_verify "pw" "not-a-digest" = Raise UnknownHashError ∧
  authenticate_user (users world0) "carol" "pw" = Raise UnknownHashError.
Proof.
  assert (H1 : list_find (username_or_email "carol") (users world0)
               = Some (2%nat, carol)) by (vm_compute; reflexivity).
  assert (H2 : pwd_verify "pw" "not-a-digest" = Raise UnknownHashError)
    by reflexivity.
  split_and!; [assumption..|].
  destruct (verify_password_propagates "pw" "not-a-digest") as (_ & _ & _ & Hauth).
  exact (Hauth _ _ _ _ _ H1 eq_refl H2).
Defined.


Lemma owner_or_role_guard_witness :
  let owner := mkUser 7 "o@example.com" "olga" "" None None None None
                      CLIENT true true 0 0 None in
  list_find (λ p, p_id p = 10) (properties world0) = Some (0%nat, house) ∧
  p_owner_id house = 7 ∧ p_agent_id house = None ∧ u_id owner = 7 ∧
  (update_property 10 (mkPropertyUpdate (Some "Villa") None) (5%nat, owner) world0).1
    = Return (mkProperty 10 7 None "Villa" DRAFT) ∧
  (delete_property 10 (5%nat, owner) world0).1
    = Return {["detail" := "Property deleted successfully"]}.
Proof.
  intros owner.
  assert (H1 : list_find (λ p, p_id p = 10) (properties world0)
               = Some (0%nat, house)) by (vm_compute; reflexivity).
  destruct (owner_or_role_guard ∅ [] 10 (mkPropertyUpdate (Some "Villa") None)
              (5%nat, owner) world0 0%nat house H1) as (_ & _ & _ & _ & Hseven).
  destruct (Hseven eq_refl eq_refl) as [Hallowed _].
  destruct (Hallowed eq_refl) as [Hupd Hdel].
  split_and!; [exact H1 | reflexivity.. | exact Hupd | exact Hdel].
Defined.

Lemma get_current_user_touches_last_login_witness :
  let now := t0 + minutes 10 in
  let user' := set_last_login now alice in
  let w' := with_users (<[0%nat := user']>) world0 in
  get_current_user alice_token now world0 = (Return (0%nat, user'), w') ∧
  ∃ user, users world0 !! 0%nat = Some user ∧
          u_last_login user' = Some now ∧
          users w' !! 0%nat = Some user' ∧
          u_hashed_password user' = u_hashed_password user.
Proof.
  intros now user' w'.
  assert (H1 : get_current_user alice_token now world0 = (Return (0%nat, user'), w'))
    by (vm_compute; reflexivity).
  split; [exact H1|].
  destruct (get_current_user_touches_last_login _ _ _ _ _ _ H1)
    as (user & Hrow & Hlogin & Hwritten & (_ & _ & _ & Hhash & _) & _).
  exists user. split_and!; assumption.
Defined.


End Runs.

(** * Further properties of the handlers *)

(** ** Lists as tables *)

Section Tables.
Context {A : Type} (P : A → Prop) `{!∀ x, Decision (P x)}.

Lemma list_find_insert_same (l : list A) (i : nat) (x y : A) :
  list_find P l = Some (i, x) → P y →
  list_find P (<[i := y]> l) = Some (i, y).
Proof.
  intros (Hrow & _ & Hfirst)%list_find_Some Hy.
  apply list_find_Some. split_and!.
  - apply list_lookup_insert_eq. eapply lookup_lt_Some, Hrow.
  - exact Hy.
  - intros j z Hj Hlt. rewrite list_lookup_insert_ne in Hj by lia.
    exact (Hfirst j z Hj Hlt).
Qed.

Lemma list_find_app_new (l : list A) (x : A) :
  list_find P l = None → P x →
  list_find P (l ++ [x]) = Some (length l, x).
Proof.
  intros Hnone Hx. rewrite (list_find_app_r _ _ _ Hnone). cbn.
  rewrite decide_True by exact Hx. reflexivity.
Qed.



Lemma list_find_reordered (l l' : list A) (i : nat) (x : A) :
  l !! i = Some x → P x →
  (∀ j other, l !! j = Some other → P other → j = i) →
  l' ≡ₚ l →
  ∃ j, list_find P l' = Some (j, x).
Proof.
  intros Hrow Hx Honly Hperm.
  assert (Hin : x ∈ l').
  { rewrite Hperm. apply list_elem_of_lookup. exists i. exact Hrow. }
  destruct (list_find_elem_of P l' x Hin Hx) as [[j y] Hfind].
  exists j. rewrite Hfind. do 2 f_equal.
  apply list_find_Some in Hfind as (Hy & HPy & _).
  assert (Hyin : y ∈ l).
  { rewrite <- Hperm. apply list_elem_of_lookup. exists j. exact Hy. }
  apply list_elem_of_lookup in Hyin as [k Hk].
  rewrite (Honly k y Hk HPy) in Hk. congruence.
Qed.

Lemma only_row_insert (l : list A) (i : nat) (y : A) :
  (∀ j other, l !! j = Some other → P other → j = i) →
  ∀ j other, <[i := y]> l !! j = Some other → P other → j = i.
Proof.
  intros Honly j other Hj Hother.
  destruct (decide (j = i)) as [|Hne]; [assumption|].
  rewrite list_lookup_insert_ne in Hj by congruence.
  exact (Honly j other Hj Hother).
Qed.

End Tables.

Lemma fmap_insert_same {A B} (f : A → B) (l : list A) (i : nat) (x y : A) :
  l !! i = Some x → f y = f x → f <$> <[i := y]> l = f <$> l.
Proof.
  intros Hrow Hf. rewrite list_fmap_insert, Hf.
  apply list_insert_id. rewrite list_lookup_fmap, Hrow. reflexivity.
Qed.

(** ** The authenticator and the role checkers *)

Section Checkers.
Context {pwd : PasswordContext} {jwt : JwtCodec}.

(** X1. [authenticate_user] returns a user exactly when the first row, in
    query order, whose username or email is the identifier has a hash the
    password verifies against; the user returned is that row. A later row
    with the same identifier is never considered. *)
Theorem authenticate_user_returns_first_match
    (db : list User) (username password : string) (user : User) :
  authenticate_user db username password = Return (Some user) ↔
  ∃ i, db !! i = Some user ∧
       username_or_email username user ∧
       (∀ j other, db !! j = Some other → (j < i)%nat →
                   ¬ username_or_email username other) ∧
       verify_password password (u_hashed_password user) = Return true.
Proof.
  split.
  - unfold authenticate_user.
    destruct (list_find _ db) as [[i found]|] eqn:Hfind; [|discriminate].
    run. destruct (verify_password _ _) as [[|]|e] eqn:Hverify;
      cbn; [|discriminate..].
    intros [= <-]. apply list_find_Some in Hfind as (Hrow & Hmatch & Hfirst).
    exists i. split_and!; [exact Hrow | exact Hmatch | exact Hfirst | exact Hverify].
  - intros (i & Hrow & Hmatch & Hfirst & Hverify).
    assert (Hfind : list_find (username_or_email username) db = Some (i, user))
      by (apply list_find_Some; split_and!; assumption).
    rewrite (authenticate_user_known _ _ _ _ _ Hfind), Hverify. reflexivity.
Qed.

Lemma require_roles_Return (allowed_roles : list UserRole) (current_user : Bound User) :
  require_roles allowed_roles current_user = Return current_user ↔
  u_role current_user.2 ∈ allowed_roles.
Proof.
  unfold require_roles. case_bool_decide as Hin; split; done.
Qed.

(** X2. [require_roles] lets a user through exactly when its role is
    among the allowed ones, so allowing more roles never turns away a
    user that was let through; [get_admin_user] and [get_agent_user] let
    through whom [require_roles] does for [ADMIN], and for [AGENT] and
    [ADMIN]; whoever passes the admin check passes the agent check; and
    each of the three, when it refuses, raises a 403 and, when it lets
    through, returns the user it was given. *)
Theorem role_checkers_agree
    (allowed_roles allowed_roles' : list UserRole) (current_user : Bound User) :
  (require_roles allowed_roles current_user = Return current_user ↔
     u_role current_user.2 ∈ allowed_roles) ∧
  (allowed_roles ⊆ allowed_roles' →
     require_roles allowed_roles current_user = Return current_user →
     require_roles allowed_roles' current_user = Return current_user) ∧
  (get_admin_user current_user = Return current_user ↔
     require_roles [ADMIN] current_user = Return current_user) ∧
  (get_agent_user current_user = Return current_user ↔
     require_roles [AGENT; ADMIN] current_user = Return current_user) ∧
  (get_admin_user current_user = Return current_user →
     get_agent_user current_user = Return current_user) ∧
  (∀ check, check ∈ [require_roles allowed_roles; get_admin_user; get_agent_user] →
     check current_user = Return current_user ∨
     ∃ detail, check current_user = Raise (HTTPException 403 detail None)).
Proof.
  split_and!.
  - apply require_roles_Return.
  - intros Hsub Hyes. apply require_roles_Return.
    apply Hsub. apply require_roles_Return, Hyes.
  - unfold get_admin_user, require_roles.
    destruct (u_role current_user.2); vm_compute; split; done.
  - unfold get_agent_user, require_roles.
    destruct (u_role current_user.2); vm_compute; split; done.
  - unfold get_admin_user, get_agent_user.
    destruct (u_role current_user.2); cbn; done.
  - intros check. rewrite !elem_of_cons, elem_of_nil.
    intros [->|[->|[->|[]]]].
    + unfold require_roles. case_bool_decide; eauto.
    + unfold get_admin_user. case_bool_decide; eauto.
    + unfold get_agent_user. case_bool_decide; eauto.
Qed.

(** X3. The dependency chain checks the token, then the active flag, then
    the role: a resolved user that is not active gets the 400 "Inactive
    user" whatever its role, an active one that is not an administrator
    the 403 "Admin access required", an active administrator is returned.
    In all three cases the last login of the row has been written. *)
Theorem admin_chain_checks_in_order
    (token : Token) (now : datetime) (w : World)
    (subject : string) (i : nat) (user : User) :
  token_username token now = Return subject →
  list_find (username_or_email subject) (users w) = Some (i, user) →
  let current_user := (i, set_last_login now user) in
  resolve_admin_user token now w =
    (if negb (u_is_active user)
     then Raise (HTTPException 400 "Inactive user" None)
     else if bool_decide (u_role user ≠ ADMIN)
          then Raise (HTTPException 403 "Admin access required" None)
          else Return current_user,
     with_users (<[i := current_user.2]>) w).
Proof.
  intros Hname Hfind current_user.
  unfold resolve_admin_user, resolve_active_user.
  rewrite run_bind, run_bind.
  rewrite (get_current_user_found _ _ _ _ _ _ Hname Hfind).
  unfold lift, get_current_active_user, get_admin_user. cbn.
  destruct (u_is_active user); cbn; [|reflexivity].
  case_bool_decide; reflexivity.
Qed.

(** X4. A token that decodes but carries no subject, or whose subject is
    neither the username nor the email of any row (the account is gone),
    is refused with the same [credentials_exception] as a token that does
    not decode, and nothing is written. *)
Theorem get_current_user_unknown_subject
    (token : Token) (now : datetime) (w : World) (payload : gmap string Claim) :
  jwt_decode token SECRET_KEY [ALGORITHM] now = Return payload →
  (payload !! "sub" = None ∨
   ∃ subject, payload !! "sub" = Some (CStr subject) ∧
              list_find (username_or_email subject) (users w) = None) →
  get_current_user token now w = (Raise credentials_exception, w).
Proof.
  intros Hdec [Hnone|(subject & Hsub & Hgone)].
  - apply get_current_user_rejected. unfold token_username.
    rewrite Hdec, Hnone. reflexivity.
  - apply get_current_user_gone with (subject := subject); [|exact Hgone].
    exact (token_username_sub _ _ _ _ Hdec Hsub).
Qed.

End Checkers.

(** ** Login *)

Section Login.
Context {pwd : PasswordContext} {jwt : JwtCodec}.



Lemma login_for_access_token_run (username password : string) (now : datetime)
    (w : World) :
  login_for_access_token username password now w =
  (match authenticate_user (users w) username password with
   | Return (Some user) =>
       if u_is_active user
       then Return (mkTokenOut
                      (create_access_token {["sub" := CStr (u_username user)]}
                         (Some (minutes ACCESS_TOKEN_EXPIRE_MINUTES)) now)
                      "bearer")
       else Raise (HTTPException 401 "User account is disabled"
                                 (Some [("WWW-Authenticate", "Bearer")]))
   | Return None =>
       Raise (HTTPException 401 "Incorrect username or password"
                            (Some [("WWW-Authenticate", "Bearer")]))
   | Raise e => Raise e
   end, w).
Proof.
  unfold login_for_access_token. run.
  destruct (authenticate_user _ _ _) as [[user|]|e]; try reflexivity.
  destruct (u_is_active user); reflexivity.
Qed.

(** X5. The login endpoint writes nothing, whatever it answers (the last
    login is not recorded at login). With a hasher that raises no HTTP
    exception of its own, it answers "User account is disabled" only when
    the first row matching the identifier is inactive and the password
    verifies against its hash; and it returns a token only for an active
    such row, a bearer token whose subject is the row's stored username,
    also when the identifier given was the email. *)
Theorem login_writes_nothing_and_names_the_username
    (username password : string) (now : datetime) (w : World) :
  (∀ plain digest code detail headers,
     pwd_verify plain digest ≠ Raise (HTTPException code detail headers)) →
  (login_for_access_token username password now w).2 = w ∧
  ((login_for_access_token username password now w).1 =
     Raise (HTTPException 401 "User account is disabled"
                          (Some [("WWW-Authenticate", "Bearer")])) →
   ∃ i user,
     list_find (username_or_email username) (users w) = Some (i, user) ∧
     verify_password password (u_hashed_password user) = Return true ∧
     u_is_active user = false) ∧
  (∀ out, (login_for_access_token username password now w).1 = Return out →
   ∃ i user,
     list_find (username_or_email username) (users w) = Some (i, user) ∧
     verify_password password (u_hashed_password user) = Return true ∧
     u_is_active user = true ∧
     token_type out = "bearer" ∧
     access_token out =
       jwt_encode (<["exp" := CDatetime (now + minutes 30)]>
                     {["sub" := CStr (u_username user)]})
                  SECRET_KEY ALGORITHM).
Proof.
  intros Hplain. rewrite login_for_access_token_run. cbn [fst snd].
  split_and!; [reflexivity | |].
  - unfold authenticate_user.
    destruct (list_find _ _) as [[i user]|] eqn:Hfind; [|discriminate].
    run. destruct (verify_password _ _) as [[|]|e] eqn:Hverify; cbn.
    + destruct (u_is_active user) eqn:Hactive; [discriminate|].
      intros _. exists i, user. done.
    + discriminate.
    + intros [= ->]. exact (False_ind _ (Hplain _ _ _ _ _ Hverify)).
  - intros out. unfold authenticate_user.
    destruct (list_find _ _) as [[i user]|] eqn:Hfind; [|discriminate].
    run. destruct (verify_password _ _) as [[|]|e] eqn:Hverify; cbn;
      [|discriminate..].
    destruct (u_is_active user) eqn:Hactive; [|discriminate].
    intros [= <-]. exists i, user. split_and!; done.
Qed.

End Login.

(** ** Tokens, issued and presented again *)

Section Sessions.
Context {pwd : PasswordContext} {jwt : JwtCodec} {laws : JwtCodecLaws}.

Lemma issued_token_resolves (subject : string) (w : World) (i : nat) (user : User)
    (issued : datetime) (ttl : timedelta) (now : datetime) :
  ttl ≠ 0 →
  list_find (username_or_email subject) (users w) = Some (i, user) →
  now < issued + ttl →
  get_current_user
    (create_access_token {["sub" := CStr subject]} (Some ttl) issued) now w =
  (Return (i, set_last_login now user),
   with_users (<[i := set_last_login now user]>) w).
Proof.
  intros Httl Hfind Hnow.
  apply get_current_user_found with (subject := subject); [|exact Hfind].
  rewrite issued_token_username by exact Httl.
  rewrite bool_decide_eq_false_2; [reflexivity|].
  assert (timegm now ≤ timegm (issued + ttl)) by (apply timegm_mono; lia). lia.
Qed.

(** X6. From login to resolution. When the first row matching the
    identifier is active, its hash verifies the password, and the row's
    own username finds that same row first, the login endpoint returns a
    token that, at every time before thirty minutes have passed, resolves
    to that row with its last login set; and that is refused once the
    whole second of the thirty-minute mark has passed. *)
Theorem login_then_resolve
    (username password : string) (issued : datetime) (w : World)
    (i : nat) (user : User) :
  list_find (username_or_email username) (users w) = Some (i, user) →
  verify_password password (u_hashed_password user) = Return true →
  u_is_active user = true →
  list_find (username_or_email (u_username user)) (users w) = Some (i, user) →
  ∃ out,
    login_for_access_token username password issued w = (Return out, w) ∧
    (∀ now, now < issued + minutes 30 →
       get_current_user (access_token out) now w =
         (Return (i, set_last_login now user),
          with_users (<[i := set_last_login now user]>) w)) ∧
    (∀ now, timegm (issued + minutes 30) < timegm now →
       get_current_user (access_token out) now w =
         (Raise credentials_exception, w)).
Proof.
  intros Hfind Hverify Hactive Hown.
  eexists. split_and!.
  - rewrite login_for_access_token_run.
    rewrite (authenticate_user_known _ _ _ _ _ Hfind), Hverify, Hactive.
    reflexivity.
  - intros now Hnow. cbn [access_token].
    apply issued_token_resolves; [apply minutes_30_nonzero | exact Hown | exact Hnow].
  - intros now Hnow. cbn [access_token]. apply get_current_user_rejected.
    rewrite issued_token_username by apply minutes_30_nonzero.
    rewrite bool_decide_eq_true_2 by exact Hnow. reflexivity.
Qed.

Lemma resolves_in_any_order (subject : string) (w w' : World) (i : nat)
    (user : User) (issued : datetime) (ttl : timedelta) (now : datetime) :
  ttl ≠ 0 →
  users w !! i = Some user → username_or_email subject user →
  only_match subject (users w) i →
  users w' ≡ₚ users w →
  now < issued + ttl →
  ∃ j,
    get_current_user
      (create_access_token {["sub" := CStr subject]} (Some ttl) issued) now w' =
    (Return (j, set_last_login now user),
     with_users (<[j := set_last_login now user]>) w').
Proof.
  intros Httl Hrow Hmatch Honly Hperm Hnow.
  destruct (list_find_reordered (username_or_email subject) _ _ _ _
              Hrow Hmatch Honly Hperm) as [j Hfind].
  exists j. exact (issued_token_resolves _ _ _ _ issued _ _ Httl Hfind Hnow).
Qed.

(** X7. Presenting an unexpired token twice. When the subject is the
    username or email of one row only, and the expiry is within the range
    of [datetime], the second resolution returns the user of the first,
    with its last login set to the time of the second, in whatever order
    the rows of the store come back after the write of the first. *)
Theorem resolution_is_repeatable
    (subject : string) (w : World) (i : nat) (user : User)
    (issued : datetime) (ttl : timedelta) (now1 now2 : datetime) :
  ttl ≠ 0 →
  representable issued → representable (issued + ttl) →
  list_find (username_or_email subject) (users w) = Some (i, user) →
  only_match subject (users w) i →
  now1 < issued + ttl → now2 < issued + ttl →
  let token := create_access_token {["sub" := CStr subject]} (Some ttl) issued in
  get_current_user token now1 w =
    (Return (i, set_last_login now1 user),
     with_users (<[i := set_last_login now1 user]>) w) ∧
  ∀ w1, users w1 ≡ₚ users (get_current_user token now1 w).2 →
    ∃ j, get_current_user token now2 w1 =
           (Return (j, set_last_login now2 user),
            with_users (<[j := set_last_login now2 user]>) w1).
Proof.
  intros Httl _ _ Hfind Honly Hnow1 Hnow2 token.
  assert (Hfirst := issued_token_resolves _ _ _ _ issued _ _ Httl Hfind Hnow1).
  pose proof Hfind as (Hrow & Hmatch & _)%list_find_Some.
  split; [exact Hfirst|].
  intros w1. unfold token. rewrite Hfirst. cbn [snd users with_users]. intros Hperm.
  apply resolves_in_any_order
    with (w := with_users (<[i := set_last_login now1 user]>) w) (i := i)
         (user := set_last_login now1 user);
    [exact Httl | | exact Hmatch | | exact Hperm | exact Hnow2].
  - cbn. apply list_lookup_insert_eq. eapply lookup_lt_Some, Hrow.
  - unfold only_match. cbn. apply only_row_insert. exact Honly.
Qed.

(** X8. Refreshing extends the session. With an unexpired token for a
    row whose own username is the username or email of that row only,
    and expiries within the range of [datetime], the refresh route
    returns a token that resolves to the same user at every time before
    thirty minutes after the refresh, however close to its expiry the old
    token was, and in whatever order the rows of the store come back
    after the write of the refresh. *)
Theorem refresh_extends_session
    (subject : string) (w : World) (i : nat) (user : User)
    (issued : datetime) (ttl : timedelta) (now : datetime) :
  ttl ≠ 0 →
  representable issued → representable (issued + ttl) →
  representable (now + minutes 30) →
  list_find (username_or_email subject) (users w) = Some (i, user) →
  only_match (u_username user) (users w) i →
  now < issued + ttl →
  let token := create_access_token {["sub" := CStr subject]} (Some ttl) issued in
  ∃ out,
    refresh_access_token_route token now w =
      (Return out, with_users (<[i := set_last_login now user]>) w) ∧
    ∀ w1 later,
      users w1 ≡ₚ users (refresh_access_token_route token now w).2 →
      later < now + minutes 30 →
      ∃ j, (get_current_user (access_token out) later w1).1 =
             Return (j, set_last_login later user).
Proof.
  intros Httl _ _ _ Hfind Honly Hnow token.
  assert (Hres := issued_token_resolves _ _ _ _ issued _ _ Httl Hfind Hnow).
  pose proof Hfind as (Hrow & _ & _)%list_find_Some.
  assert (Hrun : refresh_access_token_route token now w =
            (Return (mkTokenOut
                       (create_access_token
                          {["sub" := CStr (u_username user)]}
                          (Some (minutes ACCESS_TOKEN_EXPIRE_MINUTES)) now)
                       "bearer"),
             with_users (<[i := set_last_login now user]>) w)).
  { unfold refresh_access_token_route.
    rewrite (run_bind_return _ _ _ _ _ Hres). reflexivity. }
  eexists. split; [exact Hrun|].
  intros w1 later. rewrite Hrun. cbn [snd users with_users access_token].
  intros Hperm Hlater.
  destruct (resolves_in_any_order (u_username user)
              (with_users (<[i := set_last_login now user]>) w) w1 i
              (set_last_login now user) now (minutes ACCESS_TOKEN_EXPIRE_MINUTES) later)
    as [j Hj]; [apply minutes_30_nonzero | | | | exact Hperm | exact Hlater |].
  - cbn. apply list_lookup_insert_eq. eapply lookup_lt_Some, Hrow.
  - left. reflexivity.
  - unfold only_match. cbn. apply only_row_insert. exact Honly.
  - exists j. rewrite Hj. reflexivity.
Qed.

End Sessions.

(** ** Changing a password *)

Section PasswordChange.
Context {pwd : PasswordContext} {jwt : JwtCodec}.

Lemma change_password_run (current_password new_password salt : string)
    (now : datetime) (i : nat) (user : User) (w : World) :
  verify_password current_password (u_hashed_password user) = Return true →
  change_password current_password new_password (i, user) salt now w =
  (Return {["detail" := "Password updated successfully"]},
   with_users (<[i := set_hashed_password
                        (get_password_hash salt new_password) now user]>) w).
Proof.
  intros Hverify. unfold change_password. run. rewrite Hverify. reflexivity.
Qed.

(** X9. After a successful password change, when the identifier is the
    username or email of the user's row only and the hasher verifies its
    own digests, the identifier authenticates with the new password and is
    refused with every password that the new digest does not verify, the
    old one included, in whatever order the rows of the store come back
    after the write. *)
Theorem change_password_then_authenticate {hasher : PasswordContextLaws}
    (username current_password new_password salt : string) (now : datetime)
    (i : nat) (user : User) (w : World) :
  list_find (username_or_email username) (users w) = Some (i, user) →
  only_match username (users w) i →
  verify_password current_password (u_hashed_password user) = Return true →
  let w' := (change_password current_password new_password (i, user) salt now w).2 in
  ∀ rows, rows ≡ₚ users w' →
    authenticate_user rows username new_password =
      Return (Some (set_hashed_password (pwd_hash salt new_password) now user)) ∧
    (∀ old_password,
       verify_password old_password (pwd_hash salt new_password) = Return false →
       authenticate_user rows username old_password = Return None).
Proof.
  intros Hfind Honly Hverify w' rows. unfold w'.
  rewrite (change_password_run _ _ _ _ _ _ _ Hverify). cbn [snd users with_users].
  intros Hperm.
  pose proof Hfind as (Hrow & Hmatch & _)%list_find_Some.
  destruct (list_find_reordered (username_or_email username)
              (<[i := set_hashed_password (get_password_hash salt new_password)
                        now user]> (users w)) rows i
              (set_hashed_password (get_password_hash salt new_password) now user))
    as [j Hfind']; [| exact Hmatch | | exact Hperm |].
  - apply list_lookup_insert_eq. eapply lookup_lt_Some, Hrow.
  - apply only_row_insert. exact Honly.
  - split.
    + rewrite (authenticate_user_known _ _ _ _ _ Hfind').
      cbn [u_hashed_password set_hashed_password].
      unfold verify_password, get_password_hash. rewrite verify_hash. reflexivity.
    + intros old_password Hold.
      rewrite (authenticate_user_known _ _ _ _ _ Hfind').
      cbn [u_hashed_password set_hashed_password].
      unfold get_password_hash. rewrite Hold. reflexivity.
Qed.

(** X10. A password change does not end the sessions that are open.
    When the subject of a token is the username or email of one row only
    and its expiry is within the range of [datetime], the token resolves
    after the change, until its own expiry, to the same user, now with
    the new hash, in whatever order the rows of the store come back
    after the write. *)
Theorem change_password_keeps_tokens_valid {laws : JwtCodecLaws}
    (subject current_password new_password salt : string)
    (issued : datetime) (ttl : timedelta) (changed now : datetime)
    (i : nat) (user : User) (w : World) :
  ttl ≠ 0 →
  representable issued → representable (issued + ttl) →
  list_find (username_or_email subject) (users w) = Some (i, user) →
  only_match subject (users w) i →
  verify_password current_password (u_hashed_password user) = Return true →
  now < issued + ttl →
  let token := create_access_token {["sub" := CStr subject]} (Some ttl) issued in
  let w' := (change_password current_password new_password (i, user) salt changed w).2 in
  ∀ w1, users w1 ≡ₚ users w' →
    ∃ j, (get_current_user token now w1).1 =
           Return (j, set_last_login now
                        (set_hashed_password (pwd_hash salt new_password)
                                             changed user)).
Proof.
  intros Httl _ _ Hfind Honly Hverify Hnow token w' w1. unfold w', token.
  rewrite (change_password_run _ _ _ _ _ _ _ Hverify). cbn [snd users with_users].
  intros Hperm.
  pose proof Hfind as (Hrow & Hmatch & _)%list_find_Some.
  destruct (resolves_in_any_order subject
              (with_users (<[i := set_hashed_password
                                   (get_password_hash salt new_password)
                                   changed user]>) w) w1 i
              (set_hashed_password (get_password_hash salt new_password) changed user)
              issued ttl now)
    as [j Hj]; [exact Httl | | exact Hmatch | | exact Hperm | exact Hnow |].
  - cbn. apply list_lookup_insert_eq. eapply lookup_lt_Some, Hrow.
  - unfold only_match. cbn. apply only_row_insert. exact Honly.
  - exists j. rewrite Hj. reflexivity.
Qed.

End PasswordChange.

(** ** Registration *)

Section Registration.
Context {pwd : PasswordContext} {jwt : JwtCodec}.

Lemma register_user_inv (user_data : UserCreate) (salt : string) (new_id : Z)
    (now : datetime) (w w' : World) (new : User) :
  register_user user_data salt new_id now w = (Return new, w') →
  list_find (email_or_username_taken user_data) (users w) = None ∧
  new = mkUser new_id (uc_email user_data) (uc_username user_data)
               (get_password_hash salt (uc_password user_data))
               (uc_first_name user_data) (uc_last_name user_data)
               (uc_phone_number user_data) None
               (uc_role user_data) true false now now None ∧
  w' = with_users (λ rows : list User, (rows ++ [new])%list) w.
Proof.
  unfold register_user. run.
  destruct (list_find _ _) as [[j found]|] eqn:Hfind; [discriminate|].
  intros [= <- <-]. done.
Qed.

Lemma not_taken_forall (user_data : UserCreate) (rows : list User) :
  list_find (email_or_username_taken user_data) rows = None →
  ∀ u, u ∈ rows →
       u_email u ≠ uc_email user_data ∧ u_username u ≠ uc_username user_data.
Proof.
  rewrite list_find_None, Forall_forall. intros Hall u Hu.
  specialize (Hall u Hu). unfold email_or_username_taken in Hall. tauto.
Qed.


(** X12. Registering and then authenticating. After a registration that
    succeeded, with a hasher that verifies its own digests: the new
    username with the registration password authenticates as the new row
    when no older row has that string for its email, and the new email
    does when no older row has that string for its username. *)
Theorem register_then_authenticate {hasher : PasswordContextLaws}
    (user_data : UserCreate) (salt : string) (new_id : Z) (now : datetime)
    (w w' : World) (new : User) :
  register_user user_data salt new_id now w = (Return new, w') →
  ((∀ u, u ∈ users w → u_email u ≠ uc_username user_data) →
   authenticate_user (users w') (uc_username user_data) (uc_password user_data)
     = Return (Some new)) ∧
  ((∀ u, u ∈ users w → u_username u ≠ uc_email user_data) →
   authenticate_user (users w') (uc_email user_data) (uc_password user_data)
     = Return (Some new)).
Proof.
  intros (Hfind & Hnew & ->)%register_user_inv.
  assert (Hfree := not_taken_forall _ _ Hfind).
  assert (Hverify : verify_password (uc_password user_data) (u_hashed_password new)
                    = Return true).
  { rewrite Hnew. cbn. unfold verify_password, get_password_hash. apply verify_hash. }
  assert (Hauth : ∀ ident, list_find (username_or_email ident) (users w) = None →
            username_or_email ident new →
            authenticate_user (users w ++ [new]) ident (uc_password user_data)
            = Return (Some new)).
  { intros ident Hnone Hmatch.
    rewrite (authenticate_user_known _ _ _ _ _ (list_find_app_new _ _ _ Hnone Hmatch)).
    rewrite Hverify. reflexivity. }
  split; intros Hother; cbn; apply Hauth.
  - apply list_find_None, Forall_forall. intros u Hu [Hn|He].
    + destruct (Hfree u Hu). congruence.
    + exact (Hother u Hu He).
  - left. rewrite Hnew. reflexivity.
  - apply list_find_None, Forall_forall. intros u Hu [Hn|He].
    + exact (Hother u Hu Hn).
    + destruct (Hfree u Hu). congruence.
  - right. rewrite Hnew. reflexivity.
Qed.

End Registration.

(** ** Registration, login and resolution together *)

Section RegisteredSessions.
Context {pwd : PasswordContext} {jwt : JwtCodec}
        {hasher : PasswordContextLaws} {laws : JwtCodecLaws}.

Lemma registered_login (user_data : UserCreate) (salt : string) (new_id : Z)
    (now : datetime) (w w' : World) (new : User) (username : string)
    (issued : datetime) :
  register_user user_data salt new_id now w = (Return new, w') →
  list_find (username_or_email username) (users w) = None →
  username_or_email username new →
  login_for_access_token username (uc_password user_data) issued w' =
    (Return (mkTokenOut
               (create_access_token {["sub" := CStr (uc_username user_data)]}
                  (Some (minutes ACCESS_TOKEN_EXPIRE_MINUTES)) issued)
               "bearer"), w').
Proof.
  intros (Hfind & Hnew & ->)%register_user_inv Hnone Hmatch.
  rewrite login_for_access_token_run. cbn [users with_users].
  rewrite (authenticate_user_known _ _ _ _ _ (list_find_app_new _ _ _ Hnone Hmatch)).
  rewrite Hnew. cbn. unfold verify_password, get_password_hash.
  rewrite verify_hash. reflexivity.
Qed.

(** X13. The role asked for at registration is the role the checkers
    see. After a registration that succeeded, when no older row has the
    new username for its email, the login endpoint gives the new account
    a token with which, for thirty minutes, the chain of
    [get_current_user], [get_current_active_user] and [require_roles]
    for the requested role lets the new row through; for the role
    [ADMIN], so does the chain that ends in [get_admin_user]. *)
Theorem registered_role_passes_the_checkers
    (user_data : UserCreate) (salt : string) (new_id : Z) (now : datetime)
    (w w' : World) (new : User) (issued : datetime) :
  register_user user_data salt new_id now w = (Return new, w') →
  (∀ u, u ∈ users w → u_email u ≠ uc_username user_data) →
  ∃ out,
    login_for_access_token (uc_username user_data) (uc_password user_data) issued w'
      = (Return out, w') ∧
    ∀ later, later < issued + minutes 30 →
      (resolve_role_checker [uc_role user_data] (access_token out) later w').1
        = Return (length (users w), set_last_login later new) ∧
      (uc_role user_data = ADMIN →
       (resolve_admin_user (access_token out) later w').1
         = Return (length (users w), set_last_login later new)).
Proof.
  intros Hreg Hother.
  destruct (register_user_inv _ _ _ _ _ _ _ Hreg) as (Hfind & Hnew & Hw').
  assert (Hfree := not_taken_forall _ _ Hfind).
  assert (Hnone : list_find (username_or_email (uc_username user_data)) (users w) = None).
  { apply list_find_None, Forall_forall. intros u Hu [Hn|He].
    - destruct (Hfree u Hu). congruence.
    - exact (Hother u Hu He). }
  assert (Hmatch : username_or_email (uc_username user_data) new)
    by (left; rewrite Hnew; reflexivity).
  eexists. split; [exact (registered_login _ _ _ _ _ _ _ _ issued Hreg Hnone Hmatch)|].
  intros later Hlater. cbn [access_token].
  assert (Hfind' : list_find (username_or_email (uc_username user_data)) (users w')
                   = Some (length (users w), new))
    by (rewrite Hw'; exact (list_find_app_new _ _ _ Hnone Hmatch)).
  assert (Hres := issued_token_resolves (uc_username user_data) w'
                    (length (users w)) new issued _ later minutes_30_nonzero
                    Hfind' Hlater).
  assert (Hactive : resolve_active_user
            (create_access_token {["sub" := CStr (uc_username user_data)]}
               (Some (minutes ACCESS_TOKEN_EXPIRE_MINUTES)) issued) later w'
          = (Return (length (users w), set_last_login later new),
             with_users (<[length (users w) := set_last_login later new]>) w')).
  { unfold resolve_active_user. rewrite (run_bind_return _ _ _ _ _ Hres).
    unfold lift, get_current_active_user. rewrite Hnew. reflexivity. }
  split.
  - unfold resolve_role_checker. rewrite (run_bind_return _ _ _ _ _ Hactive).
    unfold lift, require_roles. cbn [fst snd].
    rewrite bool_decide_eq_false_2; [reflexivity|].
    intros Hnot. apply Hnot. rewrite Hnew. cbn. apply list_elem_of_singleton.
    reflexivity.
  - intros Hadmin. unfold resolve_admin_user.
    rewrite (run_bind_return _ _ _ _ _ Hactive).
    unfold lift, get_admin_user. cbn [fst snd].
    rewrite bool_decide_eq_false_2; [reflexivity|].
    intros Hnot. apply Hnot. rewrite Hnew. cbn. exact Hadmin.
Qed.

(** X14. A username that is another row's email. The check of
    [register_user] compares emails with the email and usernames with the
    username, so it accepts a username equal to the email of an older
    row. The new account then logs in with its own email and password,
    and the token it is given, whose subject is its username, resolves to
    the first row that the username finds, which is the older row. *)
Theorem registered_username_shadowed_by_email
    (user_data : UserCreate) (salt : string) (new_id : Z) (now : datetime)
    (w w' : World) (new : User) (k : nat) (older : User) (issued : datetime) :
  register_user user_data salt new_id now w = (Return new, w') →
  list_find (username_or_email (uc_username user_data)) (users w) = Some (k, older) →
  (∀ u, u ∈ users w → u_username u ≠ uc_email user_data) →
  u_email older = uc_username user_data ∧
  u_username older ≠ u_username new ∧
  ∃ out,
    login_for_access_token (uc_email user_data) (uc_password user_data) issued w'
      = (Return out, w') ∧
    ∀ later, later < issued + minutes 30 →
      (get_current_user (access_token out) later w').1
        = Return (k, set_last_login later older).
Proof.
  intros Hreg Holder Hother.
  destruct (register_user_inv _ _ _ _ _ _ _ Hreg) as (Hfind & Hnew & Hw').
  assert (Hfree := not_taken_forall _ _ Hfind).
  assert (Hin : older ∈ users w).
  { apply list_find_Some in Holder as (Hrow & _ & _).
    apply list_elem_of_lookup. exists k. exact Hrow. }
  assert (Hemail : u_email older = uc_username user_data).
  { apply list_find_Some in Holder as (_ & [Hn|He] & _); [|exact He].
    destruct (Hfree older Hin). congruence. }
  assert (Hnone : list_find (username_or_email (uc_email user_data)) (users w) = None).
  { apply list_find_None, Forall_forall. intros u Hu [Hn|He].
    - exact (Hother u Hu Hn).
    - destruct (Hfree u Hu). congruence. }
  assert (Hmatch : username_or_email (uc_email user_data) new)
    by (right; rewrite Hnew; reflexivity).
  split_and!; [exact Hemail | |].
  { rewrite Hnew. cbn. destruct (Hfree older Hin). assumption. }
  eexists. split; [exact (registered_login _ _ _ _ _ _ _ _ issued Hreg Hnone Hmatch)|].
  intros later Hlater. cbn [access_token].
  rewrite (issued_token_resolves (uc_username user_data) w' k older);
    [reflexivity | apply minutes_30_nonzero | | exact Hlater].
  rewrite Hw'. cbn [users with_users]. apply list_find_app_l. exact Holder.
Qed.

End RegisteredSessions.

(** ** What the routes never change *)

Section Frames.
Context {pwd : PasswordContext} {jwt : JwtCodec}.

Lemma get_current_user_raise_inv (token : Token) (now : datetime) (w w' : World)
    (e : Exception) :
  get_current_user token now w = (Raise e, w') → w' = w.
Proof.
  unfold get_current_user. run.
  destruct (token_username token now) as [subject|e']; [|congruence].
  destruct (list_find _ _) as [[j user]|]; [discriminate|]. congruence.
Qed.

Lemma get_current_user_bound (token : Token) (now : datetime) (w w' : World)
    (i : nat) (user' : User) :
  get_current_user token now w = (Return (i, user'), w') →
  users w' !! i = Some user' ∧
  ∃ user, users w !! i = Some user ∧ user' = set_last_login now user ∧
          w' = with_users (<[i := user']>) w.
Proof.
  intros (subject & user & _ & Hfind & -> & ->)%get_current_user_inv.
  apply list_find_Some in Hfind as (Hrow & _ & _). split.
  - cbn. apply list_lookup_insert_eq. eapply lookup_lt_Some, Hrow.
  - exists user. done.
Qed.

Section Column.
Context {B : Type} (f : User → B).
Hypothesis f_last_login : ∀ t u, f (set_last_login t u) = f u.
Hypothesis f_hashed_password : ∀ h t u, f (set_hashed_password h t u) = f u.
Hypothesis f_profile : ∀ upd u, f (setattr_profile upd u) = f u.
Hypothesis f_touch : ∀ t u, f (touch t u) = f u.

Lemma get_current_user_column (token : Token) (now : datetime) (w : World) :
  f <$> users (get_current_user token now w).2 = f <$> users w.
Proof.
  destruct (get_current_user token now w) as [[[i user']|e] w'] eqn:Hrun; cbn.
  - apply get_current_user_bound in Hrun as (_ & user & Hrow & -> & ->). cbn.
    apply fmap_insert_same with (x := user); [exact Hrow|apply f_last_login].
  - apply get_current_user_raise_inv in Hrun as ->. reflexivity.
Qed.

Lemma change_password_column (current_password new_password salt : string)
    (now : datetime) (i : nat) (user : User) (w : World) :
  users w !! i = Some user →
  f <$> users (change_password current_password new_password (i, user) salt now w).2
  = f <$> users w.
Proof.
  intros Hrow. unfold change_password. run.
  destruct (verify_password _ _) as [[|]|e]; cbn; try reflexivity.
  apply fmap_insert_same with (x := user); [exact Hrow|apply f_hashed_password].
Qed.

Lemma update_current_user_column (upd : UserUpdate)
    (now : datetime) (i : nat) (user : User) (w : World) :
  users w !! i = Some user →
  f <$> users (update_current_user upd (i, user) now w).2 = f <$> users w.
Proof.
  intros Hrow. unfold update_current_user. run. cbn.
  apply fmap_insert_same with (x := user); [exact Hrow|].
  case_bool_decide; [reflexivity|]. rewrite f_touch. apply f_profile.
Qed.

Lemma routes_column (token : Token) (now : datetime) (w : World)
    (current_password new_password salt : string) (upd : UserUpdate) :
  f <$> users (change_password_route token current_password new_password salt now w).2
    = f <$> users w ∧
  f <$> users (update_current_user_route token upd now w).2 = f <$> users w.
Proof.
  assert (Hres := get_current_user_column token now w).
  unfold change_password_route, update_current_user_route.
  rewrite !run_bind.
  destruct (get_current_user token now w) as [[[i user']|e] w'] eqn:Hrun;
    cbn [snd] in *; [|split; exact Hres].
  apply get_current_user_bound in Hrun as (Hrow & _).
  split; rewrite <- Hres.
  - apply change_password_column, Hrow.
  - apply update_current_user_column, Hrow.
Qed.

End Column.


(** X15. Whatever the token and the request, the resolver, the
    password-change route and the profile-update route leave the id,
    username, email, role, active flag and verified flag of every row as
    they were, add no row and remove none; so usernames that were
    pairwise distinct stay so, and emails too. The resolver and the
    profile update also leave every password hash as it was. *)
Theorem user_routes_keep_identities
    (token : Token) (now : datetime) (w : World)
    (current_password new_password salt : string) (upd : UserUpdate) :
  let resolved := (get_current_user token now w).2 in
  let changed :=
    (change_password_route token current_password new_password salt now w).2 in
  let updated := (update_current_user_route token upd now w).2 in
  (∀ w', w' ∈ [resolved; changed; updated] →
     identity <$> users w' = identity <$> users w ∧
     length (users w') = length (users w) ∧
     (unique_credentials (users w) → unique_credentials (users w'))) ∧
  (∀ w', w' ∈ [resolved; updated] →
     u_hashed_password <$> users w' = u_hashed_password <$> users w).
Proof.
  intros resolved changed updated.
  assert (Hcol : ∀ {B} (f : User → B),
            (∀ t u, f (set_last_login t u) = f u) →
            (∀ h t u, f (set_hashed_password h t u) = f u) →
            (∀ upd u, f (setattr_profile upd u) = f u) →
            (∀ t u, f (touch t u) = f u) →
            ∀ w', w' ∈ [resolved; changed; updated] →
                  f <$> users w' = f <$> users w).
  { intros B f H1 H2 H3 H4 w'. rewrite !elem_of_cons, elem_of_nil.
    intros [->|[->|[->|[]]]].
    - apply get_current_user_column, H1.
    - apply routes_column; assumption.
    - apply routes_column; assumption. }
  split.
  - intros w' Hw'. split_and!.
    + apply Hcol; done.
    + rewrite <- (length_fmap identity (users w')), (Hcol _ identity) by done.
      apply length_fmap.
    + intros [Hnames Hemails]. split.
      * rewrite (Hcol _ u_username) by done. exact Hnames.
      * rewrite (Hcol _ u_email) by done. exact Hemails.
  - intros w'. rewrite !elem_of_cons, elem_of_nil. intros [->|[->|[]]].
    + apply get_current_user_column. done.
    + unfold updated, update_current_user_route. rewrite run_bind.
      assert (Hres := get_current_user_column u_hashed_password
                        (λ _ _, eq_refl) token now w).
      destruct (get_current_user token now w) as [[[i user']|e] w1] eqn:Hrun;
        cbn [snd] in *; [|exact Hres].
      apply get_current_user_bound in Hrun as (Hrow & _). rewrite <- Hres.
      unfold update_current_user. run. cbn.
      apply fmap_insert_same with (x := user'); [exact Hrow|].
      case_bool_decide; reflexivity.
Qed.


End Frames.

(** ** Updating and deleting a property *)

Section PropertyWrites.

Lemma apply_update_ownership (upd : PropertyUpdate) (p : Property) :
  ownership (apply_update upd p) = ownership p.
Proof.
  unfold apply_update. destruct (upd_title upd), (upd_status upd); reflexivity.
Qed.

Lemma denied_by_ownership (p p' : Property) (u : User) :
  ownership p' = ownership p →
  update_property_denied p' u = update_property_denied p u ∧
  delete_property_denied p' u = delete_property_denied p u.
Proof.
  unfold ownership, update_property_denied, delete_property_denied.
  intros [= _ -> ->]. done.
Qed.

(** X17. An update of a property never changes who owns it. Whatever
    the outcome of [update_property], the users and the id, owner and
    agent of every property are as before, so the ownership checks answer
    for every user as they did; when it is refused, with a 404 for an
    unknown id or the 403, nothing at all is written; and when it
    succeeds, the row it returns is the row stored under that id. *)
Theorem update_property_keeps_ownership
    (property_id : Z) (upd : PropertyUpdate) (current_user : Bound User) (w : World) :
  let result := (update_property property_id upd current_user w).1 in
  let w' := (update_property property_id upd current_user w).2 in
  users w' = users w ∧
  ownership <$> properties w' = ownership <$> properties w ∧
  (∀ j p p' u, properties w !! j = Some p → properties w' !! j = Some p' →
     update_property_denied p' u = update_property_denied p u ∧
     delete_property_denied p' u = delete_property_denied p u) ∧
  (∀ e, result = Raise e → w' = w ∧ (e = not_found ∨ e = not_authorized)) ∧
  (∀ p', result = Return p' →
     p_id p' = property_id ∧
     list_find (λ p, p_id p = property_id) (properties w') = (λ r, (r.1, p')) <$>
       list_find (λ p, p_id p = property_id) (properties w)).
Proof.
  intros result w'.
  assert (Hcols : users w' = users w ∧
                  ownership <$> properties w' = ownership <$> properties w).
  { unfold w', update_property. run.
    destruct (list_find _ _) as [[i p]|] eqn:Hfind; [|done].
    destruct (update_property_denied _ _); [done|]. cbn. split; [reflexivity|].
    apply list_find_Some in Hfind as (Hrow & _ & _).
    apply fmap_insert_same with (x := p); [exact Hrow|apply apply_update_ownership]. }
  destruct Hcols as [Husers Hown].
  split_and!; [exact Husers | exact Hown | | |].
  - intros j p p' u Hp Hp'. apply denied_by_ownership.
    assert (Hj := f_equal (λ l, l !! j) Hown). cbn in Hj.
    rewrite !list_lookup_fmap, Hp, Hp' in Hj. cbn in Hj. congruence.
  - unfold result, w', update_property. run.
    destruct (list_find _ _) as [[i p]|] eqn:Hfind.
    + destruct (update_property_denied _ _); cbn; [|discriminate].
      intros e [= <-]. auto.
    + cbn. intros e [= <-]. auto.
  - unfold result, w', update_property. run.
    destruct (list_find _ _) as [[i p]|] eqn:Hfind; [|discriminate].
    destruct (update_property_denied _ _); cbn; [discriminate|].
    intros p' [= <-]. pose proof Hfind as (Hrow & Hid & _)%list_find_Some.
    assert (Hid' : p_id (apply_update upd p) = property_id).
    { pose proof (apply_update_ownership upd p) as [= Hsame _ _]. congruence. }
    split; [exact Hid'|].
    apply list_find_insert_same with (x := p); [exact Hfind|exact Hid'].
Qed.

Lemma delete_row_elem (rows : list Property) (i : nat) (p : Property) :
  rows !! i = Some p → unique_property_ids rows →
  unique_property_ids (delete i rows) ∧
  ∀ q, q ∈ delete i rows ↔ q ∈ rows ∧ p_id q ≠ p_id p.
Proof.
  intros Hrow Huniq. unfold unique_property_ids in *.
  assert (Hdel : delete i rows = (take i rows ++ drop (S i) rows)%list)
    by apply delete_take_drop.
  assert (Hsplit : rows = (take i rows ++ p :: drop (S i) rows)%list)
    by (symmetry; apply take_drop_middle; exact Hrow).
  rewrite Hdel. clear Hdel.
  generalize dependent (drop (S i) rows). generalize dependent (take i rows).
  intros before after ->. clear Hrow. revert Huniq.
  rewrite !fmap_app, fmap_cons, !NoDup_app, NoDup_cons.
  intros (Hl & Hdisj & Hnot & Hr). split.
  - split_and!; [exact Hl | | exact Hr].
    intros x Hx Hx'. apply (Hdisj x Hx). right. exact Hx'.
  - intros q. rewrite !elem_of_app, elem_of_cons. split.
    + intros [Hq|Hq].
      * split; [auto|]. intros Heq. apply (Hdisj (p_id q)).
        -- apply list_elem_of_fmap_2. exact Hq.
        -- rewrite Heq. left.
      * split; [auto|]. intros Heq. apply Hnot. rewrite <- Heq.
        apply list_elem_of_fmap_2. exact Hq.
    + intros [[Hq|[->|Hq]] Hne]; [auto|contradiction|auto].
Qed.

(** X18. Deleting a property. [delete_property] writes nothing when it
    refuses. When it succeeds in a table whose ids are pairwise distinct,
    the users are as before, the table has one row less, its rows are
    the former rows with another id, its ids are still pairwise distinct,
    and from then on deleting or updating the same id answers 404 for
    every user. *)
Theorem delete_property_removes_the_row
    (property_id : Z) (current_user : Bound User) (w : World) :
  unique_property_ids (properties w) →
  let result := (delete_property property_id current_user w).1 in
  let w' := (delete_property property_id current_user w).2 in
  (∀ e, result = Raise e → w' = w ∧ (e = not_found ∨ e = not_authorized)) ∧
  (∀ r, result = Return r →
     users w' = users w ∧
     length (properties w) = S (length (properties w')) ∧
     (∀ q, q ∈ properties w' ↔ q ∈ properties w ∧ p_id q ≠ property_id) ∧
     unique_property_ids (properties w') ∧
     ∀ other upd,
       delete_property property_id other w' = (Raise not_found, w') ∧
       update_property property_id upd other w' = (Raise not_found, w')).
Proof.
  intros Huniq result w'. unfold result, w', delete_property. run.
  destruct (list_find _ _) as [[i p]|] eqn:Hfind.
  - destruct (delete_property_denied _ _); cbn.
    + split; [|discriminate]. intros e [= <-]. auto.
    + split; [discriminate|]. intros r _.
      apply list_find_Some in Hfind as (Hrow & Hid & _).
      destruct (delete_row_elem _ _ _ Hrow Huniq) as [Huniq' Helem].
      rewrite Hid in Helem.
      assert (Hgone : list_find (λ q, p_id q = property_id)
                        (delete i (properties w)) = None).
      { apply list_find_None, Forall_forall. intros q Hq. apply Helem, Hq. }
      split_and!; [reflexivity | | exact Helem | exact Huniq' |].
      * rewrite length_delete by (rewrite Hrow; eauto).
        apply lookup_lt_Some in Hrow. lia.
      * intros other upd. unfold update_property. run. cbn.
        rewrite Hgone. done.
  - cbn. split; [|discriminate]. intros e [= <-]. auto.
Qed.

(** X19. The assigned agent may update but not delete. For a property
    whose agent is the current user, who is neither its owner nor an
    administrator, [update_property] applies the update and
    [delete_property] refuses with the 403 and writes nothing. *)
Theorem agent_may_update_but_not_delete
    (property_id : Z) (upd : PropertyUpdate) (current_user : Bound User)
    (w : World) (i : nat) (property : Property) :
  list_find (λ p, p_id p = property_id) (properties w) = Some (i, property) →
  p_agent_id property = Some (u_id current_user.2) →
  p_owner_id property ≠ u_id current_user.2 →
  u_role current_user.2 ≠ ADMIN →
  update_property property_id upd current_user w =
    (Return (apply_update upd property),
     with_properties (<[i := apply_update upd property]>) w) ∧
  delete_property property_id current_user w = (Raise not_authorized, w).
Proof.
  intros Hfind Hagent Howner Hrole.
  unfold update_property, delete_property. run. rewrite Hfind.
  unfold update_property_denied, delete_property_denied. rewrite Hagent.
  rewrite (bool_decide_eq_true_2 _ Howner), (bool_decide_eq_true_2 _ Hrole).
  rewrite bool_decide_eq_false_2 by (intros Hne; apply Hne; reflexivity).
  done.
Qed.

End PropertyWrites.

(** ** Token lifetimes at the edges *)

Section Lifetimes.
Context {pwd : PasswordContext} {jwt : JwtCodec} {laws : JwtCodecLaws}.

(** X20. A lifetime of zero is no lifetime given: [create_access_token]
    then issues the token it issues without one, good for fifteen
    minutes. And a lifetime of minus one second or less that keeps the
    expiry within the range of [datetime] (beyond it the source raises
    [OverflowError] and issues no token) yields a token that
    [get_current_user] refuses at the time of issue and at every later
    time, without writing. *)
Theorem create_access_token_edge_lifetimes
    (data : gmap string Claim) (subject : string) (issued : datetime)
    (ttl : timedelta) (now : datetime) (w : World) :
  representable issued → representable (issued + ttl) →
  ttl ≤ - 1000000 → issued ≤ now →
  create_access_token data (Some 0) issued = create_access_token data None issued ∧
  get_current_user
    (create_access_token {["sub" := CStr subject]} (Some ttl) issued) now w
    = (Raise credentials_exception, w).
Proof.
  intros _ _ Httl Hnow. split; [reflexivity|].
  apply get_current_user_rejected.
  rewrite issued_token_username by lia.
  rewrite bool_decide_eq_true_2; [reflexivity|].
  assert (Hshift : timegm (issued + ttl) ≤ timegm (issued + -1 * 1000000))
    by (apply timegm_mono; lia).
  assert (Hstep : timegm (issued + -1 * 1000000) = timegm issued + -1)
    by (unfold timegm; apply Z.div_add; lia).
  assert (timegm issued ≤ timegm now) by (apply timegm_mono; exact Hnow).
  lia.
Qed.

End Lifetimes.

(** ** The reference hasher verifies its own digests *)

Section ReferenceHasher.
Import Reference.

Lemma append_String (a : Ascii.ascii) (s t : string) :
  String a s +:+ t = String a (s +:+ t).
Proof. reflexivity. Qed.

Lemma prefix_append (s t : string) : String.prefix s (s +:+ t) = true.
Proof.
  induction s as [|a s IH].
  - destruct t; reflexivity.
  - rewrite append_String. cbn.
    destruct (Ascii.ascii_dec a a); [exact IH|congruence].
Qed.

Lemma append_assoc (a b c : string) : (a +:+ b) +:+ c = a +:+ b +:+ c.
Proof.
  induction a as [|x a IH]; [reflexivity|].
  rewrite !append_String, IH. reflexivity.
Qed.

Lemma ref_verify_hash (salt password : string) :
  ref_verify password (ref_hash salt password) = Return true.
Proof.
  unfold ref_verify, ref_hash. rewrite prefix_append.
  replace ("$2b$" +:+ password +:+ "$" +:+ salt)
    with (("$2b$" +:+ password +:+ "$") +:+ salt)
    by (rewrite !append_assoc; reflexivity).
  rewrite prefix_append. reflexivity.
Qed.

Lemma ref_hasher_laws : @PasswordContextLaws ref_pwd.
Proof. constructor. exact ref_verify_hash. Qed.

Lemma ref_verify_raises_no_http (plain digest : string) (code : Z)
    (detail : string) (headers : option (list (string * string))) :
  ref_verify plain digest ≠ Raise (HTTPException code detail headers).
Proof. unfold ref_verify. destruct (String.prefix _ digest); discriminate. Qed.

End ReferenceHasher.

(** ** The further properties at work on the reference store *)

Section MoreRuns.
Import Reference Scenario.
#[local] Existing Instance ref_pwd.
#[local] Existing Instance ref_jwt.
#[local] Existing Instance ref_laws.
#[local] Existing Instance ref_hasher_laws.

Lemma authenticate_user_returns_first_match_witness :
  authenticate_user (users world0) "alice@example.com" "pw" = Return (Some alice) ∧
  ∃ i, users world0 !! i = Some alice ∧
       username_or_email "alice@example.com" alice.
Proof.
  assert (H : authenticate_user (users world0) "alice@example.com" "pw"
              = Return (Some alice)) by (vm_compute; reflexivity).
  split; [exact H|].
  destruct (proj1 (authenticate_user_returns_first_match _ _ _ _) H)
    as (i & Hrow & Hmatch & _).
  exists i. split; assumption.
Defined.

Lemma role_checkers_agree_witness :
  [AGENT] ⊆ [AGENT; ADMIN] ∧
  require_roles [AGENT] (1%nat, bob) = Return (1%nat, bob) ∧
  require_roles [AGENT; ADMIN] (1%nat, bob) = Return (1%nat, bob).
Proof.
  assert (H1 : [AGENT] ⊆ [AGENT; ADMIN]).
  { intros x Hx%list_elem_of_singleton. subst. apply list_elem_of_here. }
  assert (H2 : require_roles [AGENT] (1%nat, bob) = Return (1%nat, bob))
    by (vm_compute; reflexivity).
  destruct (role_checkers_agree [AGENT] [AGENT; ADMIN] (1%nat, bob))
    as (_ & Hmono & _).
  split_and!; [exact H1 | exact H2 | exact (Hmono H1 H2)].
Defined.

Lemma admin_chain_checks_in_order_witness :
  let now := t0 + minutes 10 in
  token_username bob_token now = Return "bob" ∧
  list_find (username_or_email "bob") (users world0) = Some (1%nat, bob) ∧
  resolve_admin_user bob_token now world0 =
    (Raise (HTTPException 400 "Inactive user" None),
     with_users (<[1%nat := set_last_login now bob]>) world0).
Proof.
  intros now.
  assert (H1 : token_username bob_token now = Return "bob")
    by (vm_compute; reflexivity).
  assert (H2 : list_find (username_or_email "bob") (users world0)
               = Some (1%nat, bob)) by (vm_compute; reflexivity).
  split_and!; [exact H1 | exact H2 |].
  exact (admin_chain_checks_in_order (jwt := ref_jwt) bob_token now world0
           "bob" 1%nat bob H1 H2).
Defined.

Lemma get_current_user_unknown_subject_witness :
  let now := t0 + minutes 10 in
  let payload : gmap string Claim :=
    <["exp" := CInt (timegm (t0 + minutes 30))]> {["sub" := CStr "zed"]} in
  jwt_decode zed_token SECRET_KEY [ALGORITHM] now = Return payload ∧
  payload !! "sub" = Some (CStr "zed") ∧
  list_find (username_or_email "zed") (users world0) = None ∧
  get_current_user zed_token now world0 = (Raise credentials_exception, world0).
Proof.
  intros now payload.
  assert (H1 : jwt_decode zed_token SECRET_KEY [ALGORITHM] now = Return payload)
    by (vm_compute; reflexivity).
  assert (H2 : payload !! "sub" = Some (CStr "zed")) by (vm_compute; reflexivity).
  assert (H3 : list_find (username_or_email "zed") (users world0) = None)
    by (vm_compute; reflexivity).
  split_and!; [exact H1 | exact H2 | exact H3 |].
  apply (get_current_user_unknown_subject (jwt := ref_jwt) zed_token now world0
           payload H1).
  right. exists "zed". split; assumption.
Defined.

Lemma login_writes_nothing_witness :
  (∀ plain digest code detail headers,
     pwd_verify plain digest ≠ Raise (HTTPException code detail headers)) ∧
  (login_for_access_token "bob" "hunter2" t0 world0).1 =
    Raise (HTTPException 401 "User account is disabled"
                         (Some [("WWW-Authenticate", "Bearer")])) ∧
  (login_for_access_token "bob" "hunter2" t0 world0).2 = world0 ∧
  ∃ i user,
    list_find (username_or_email "bob") (users world0) = Some (i, user) ∧
    u_is_active user = false.
Proof.
  assert (H1 : ∀ plain digest code detail headers,
            pwd_verify plain digest ≠ Raise (HTTPException code detail headers))
    by exact ref_verify_raises_no_http.
  assert (H2 : (login_for_access_token "bob" "hunter2" t0 world0).1 =
                 Raise (HTTPException 401 "User account is disabled"
                                      (Some [("WWW-Authenticate", "Bearer")])))
    by (vm_compute; reflexivity).
  destruct (login_writes_nothing_and_names_the_username (jwt := ref_jwt)
              "bob" "hunter2" t0 world0 H1) as (Hsame & Hdisabled & _).
  destruct (Hdisabled H2) as (i & user & Hfind & _ & Hoff).
  split_and!; [exact H1 | exact H2 | exact Hsame |].
  exists i, user. split; assumption.
Defined.

Lemma login_then_resolve_witness :
  list_find (username_or_email "alice@example.com") (users world0)
    = Some (0%nat, alice) ∧
  verify_password "pw" (u_hashed_password alice) = Return true ∧
  u_is_active alice = true ∧
  list_find (username_or_email (u_username alice)) (users world0)
    = Some (0%nat, alice) ∧
  t0 + minutes 29 < t0 + minutes 30 ∧
  ∃ out,
    login_for_access_token "alice@example.com" "pw" t0 world0 = (Return out, world0) ∧
    (get_current_user (access_token out) (t0 + minutes 29) world0).1
      = Return (0%nat, set_last_login (t0 + minutes 29) alice).
Proof.
  assert (H1 : list_find (username_or_email "alice@example.com") (users world0)
               = Some (0%nat, alice)) by (vm_compute; reflexivity).
  assert (H2 : verify_password "pw" (u_hashed_password alice) = Return true)
    by (vm_compute; reflexivity).
  assert (H3 : u_is_active alice = true) by reflexivity.
  assert (H4 : list_find (username_or_email (u_username alice)) (users world0)
               = Some (0%nat, alice)) by (vm_compute; reflexivity).
  assert (H5 : t0 + minutes 29 < t0 + minutes 30) by reflexivity.
  destruct (login_then_resolve (jwt := ref_jwt) "alice@example.com" "pw" t0 world0
              0%nat alice H1 H2 H3 H4) as (out & Hlogin & Hbefore & _).
  split_and!; [assumption..|].
  exists out. split; [exact Hlogin|]. rewrite (Hbefore _ H5). reflexivity.
Defined.

Lemma alice_only_match : only_match "alice" (users world0) 0%nat.
Proof.
  intros j other Hj Hmatch.
  destruct j as [|[|[|j]]]; cbn in Hj; [reflexivity | | | discriminate];
    injection Hj as <-; destruct Hmatch; discriminate.
Qed.

Lemma resolution_is_repeatable_witness :
  let moved := mkWorld [bob; carol; set_last_login (t0 + minutes 1) alice]
                       [house] [] in
  minutes 30 ≠ 0 ∧
  representable t0 ∧ representable (t0 + minutes 30) ∧
  list_find (username_or_email "alice") (users world0) = Some (0%nat, alice) ∧
  only_match "alice" (users world0) 0%nat ∧
  t0 + minutes 1 < t0 + minutes 30 ∧ t0 + minutes 2 < t0 + minutes 30 ∧
  users moved ≡ₚ users (get_current_user alice_token (t0 + minutes 1) world0).2 ∧
  ∃ j, (get_current_user alice_token (t0 + minutes 2) moved).1
         = Return (j, set_last_login (t0 + minutes 2) alice).
Proof.
  intros moved.
  assert (H1 : minutes 30 ≠ 0) by discriminate.
  assert (R1 : representable t0) by (split; discriminate).
  assert (R2 : representable (t0 + minutes 30)) by (split; discriminate).
  assert (H2 : list_find (username_or_email "alice") (users world0)
               = Some (0%nat, alice)) by (vm_compute; reflexivity).
  assert (H3 : t0 + minutes 1 < t0 + minutes 30) by reflexivity.
  assert (H4 : t0 + minutes 2 < t0 + minutes 30) by reflexivity.
  assert (H5 : users moved
               ≡ₚ users (get_current_user alice_token (t0 + minutes 1) world0).2).
  { vm_compute. symmetry. exact (Permutation_cons_append _ _). }
  destruct (resolution_is_repeatable (jwt := ref_jwt) "alice" world0 0%nat alice
              t0 (minutes 30) (t0 + minutes 1) (t0 + minutes 2)
              H1 R1 R2 H2 alice_only_match H3 H4) as [_ Hsecond].
  destruct (Hsecond moved H5) as [j Hj].
  split_and!; try assumption; [exact alice_only_match|].
  exists j. unfold alice_token. rewrite Hj. reflexivity.
Defined.

Lemma refresh_extends_session_witness :
  let moved := mkWorld [bob; carol; set_last_login (t0 + minutes 29) alice]
                       [house] [] in
  minutes 30 ≠ 0 ∧
  representable t0 ∧ representable (t0 + minutes 30) ∧
  representable (t0 + minutes 29 + minutes 30) ∧
  list_find (username_or_email "alice") (users world0) = Some (0%nat, alice) ∧
  only_match (u_username alice) (users world0) 0%nat ∧
  t0 + minutes 29 < t0 + minutes 30 ∧
  users moved
    ≡ₚ users (refresh_access_token_route alice_token (t0 + minutes 29) world0).2 ∧
  t0 + minutes 58 < t0 + minutes 29 + minutes 30 ∧
  ∃ out j,
    (refresh_access_token_route alice_token (t0 + minutes 29) world0).1 = Return out ∧
    (get_current_user (access_token out) (t0 + minutes 58) moved).1
      = Return (j, set_last_login (t0 + minutes 58) alice).
Proof.
  intros moved.
  assert (H1 : minutes 30 ≠ 0) by discriminate.
  assert (R1 : representable t0) by (split; discriminate).
  assert (R2 : representable (t0 + minutes 30)) by (split; discriminate).
  assert (R3 : representable (t0 + minutes 29 + minutes 30)) by (split; discriminate).
  assert (H2 : list_find (username_or_email "alice") (users world0)
               = Some (0%nat, alice)) by (vm_compute; reflexivity).
  assert (H3 : t0 + minutes 29 < t0 + minutes 30) by reflexivity.
  assert (H4 : t0 + minutes 58 < t0 + minutes 29 + minutes 30) by reflexivity.
  assert (H5 : users moved
      ≡ₚ users (refresh_access_token_route alice_token (t0 + minutes 29) world0).2).
  { vm_compute. symmetry. exact (Permutation_cons_append _ _). }
  destruct (refresh_extends_session (jwt := ref_jwt) "alice" world0 0%nat alice
              t0 (minutes 30) (t0 + minutes 29) H1 R1 R2 R3 H2 alice_only_match H3)
    as (out & Hrun & Hlater).
  destruct (Hlater moved _ H5 H4) as [j Hj].
  split_and!; try assumption; [exact alice_only_match|].
  exists out, j. split; [|exact Hj].
  unfold alice_token. rewrite Hrun. reflexivity.
Defined.

Lemma change_password_then_authenticate_witness :
  let changed := set_hashed_password (pwd_hash "s9" "new-pw") t0 alice in
  list_find (username_or_email "alice") (users world0) = Some (0%nat, alice) ∧
  only_match "alice" (users world0) 0%nat ∧
  verify_password "pw" (u_hashed_password alice) = Return true ∧
  verify_password "pw" (pwd_hash "s9" "new-pw") = Return false ∧
  [bob; carol; changed]
    ≡ₚ users (change_password "pw" "new-pw" (0%nat, alice) "s9" t0 world0).2 ∧
  authenticate_user [bob; carol; changed] "alice" "new-pw" = Return (Some changed) ∧
  authenticate_user [bob; carol; changed] "alice" "pw" = Return None.
Proof.
  intros changed.
  assert (H1 : list_find (username_or_email "alice") (users world0)
               = Some (0%nat, alice)) by (vm_compute; reflexivity).
  assert (H2 : verify_password "pw" (u_hashed_password alice) = Return true)
    by (vm_compute; reflexivity).
  assert (H3 : verify_password "pw" (pwd_hash "s9" "new-pw") = Return false)
    by (vm_compute; reflexivity).
  assert (H4 : [bob; carol; changed]
      ≡ₚ users (change_password "pw" "new-pw" (0%nat, alice) "s9" t0 world0).2).
  { vm_compute. symmetry. exact (Permutation_cons_append _ _). }
  destruct (change_password_then_authenticate
              "alice" "pw" "new-pw" "s9" t0 0%nat alice world0
              H1 alice_only_match H2 _ H4) as [Hnew Hold].
  split_and!; [exact H1 | exact alice_only_match | exact H2 | exact H3 | exact H4 |
               exact Hnew | exact (Hold "pw" H3)].
Defined.

Lemma change_password_keeps_tokens_valid_witness :
  let changed := set_hashed_password (pwd_hash "s9" "new-pw") (t0 + minutes 10) alice in
  let moved := mkWorld [bob; carol; changed] [house] [] in
  minutes 30 ≠ 0 ∧
  representable t0 ∧ representable (t0 + minutes 30) ∧
  list_find (username_or_email "alice") (users world0) = Some (0%nat, alice) ∧
  only_match "alice" (users world0) 0%nat ∧
  verify_password "pw" (u_hashed_password alice) = Return true ∧
  t0 + minutes 20 < t0 + minutes 30 ∧
  users moved
    ≡ₚ users (change_password "pw" "new-pw" (0%nat, alice) "s9"
                (t0 + minutes 10) world0).2 ∧
  ∃ j, (get_current_user alice_token (t0 + minutes 20) moved).1
         = Return (j, set_last_login (t0 + minutes 20) changed).
Proof.
  intros changed moved.
  assert (H1 : minutes 30 ≠ 0) by discriminate.
  assert (R1 : representable t0) by (split; discriminate).
  assert (R2 : representable (t0 + minutes 30)) by (split; discriminate).
  assert (H2 : list_find (username_or_email "alice") (users world0)
               = Some (0%nat, alice)) by (vm_compute; reflexivity).
  assert (H3 : verify_password "pw" (u_hashed_password alice) = Return true)
    by (vm_compute; reflexivity).
  assert (H4 : t0 + minutes 20 < t0 + minutes 30) by reflexivity.
  assert (H5 : users moved
      ≡ₚ users (change_password "pw" "new-pw" (0%nat, alice) "s9"
                  (t0 + minutes 10) world0).2).
  { vm_compute. symmetry. exact (Permutation_cons_append _ _). }
  destruct (change_password_keeps_tokens_valid (jwt := ref_jwt) "alice" "pw" "new-pw"
              "s9" t0 (minutes 30) (t0 + minutes 10) (t0 + minutes 20) 0%nat alice
              world0 H1 R1 R2 H2 alice_only_match H3 H4 moved H5) as [j Hj].
  split_and!; try assumption; [exact alice_only_match|].
  exists j. exact Hj.
Defined.


Lemma register_then_authenticate_witness :
  register_user dave_data "s4" 4 t0 world0
    = (Return dave, with_users (λ rows : list User, (rows ++ [dave])%list) world0) ∧
  (∀ u, u ∈ users world0 → u_email u ≠ uc_username dave_data) ∧
  authenticate_user (users world0 ++ [dave]) "dave" "pw-d" = Return (Some dave).
Proof.
  assert (H1 : register_user dave_data "s4" 4 t0 world0
               = (Return dave,
                  with_users (λ rows : list User, (rows ++ [dave])%list) world0))
    by (vm_compute; reflexivity).
  assert (H2 : ∀ u, u ∈ users world0 → u_email u ≠ uc_username dave_data).
  { intros u Hu. cbn in Hu. rewrite !elem_of_cons, elem_of_nil in Hu.
    destruct Hu as [->|[->|[->|[]]]]; discriminate. }
  split_and!; [exact H1 | exact H2 |].
  exact (proj1 (register_then_authenticate dave_data "s4" 4 t0
                  world0 _ dave H1) H2).
Defined.

Lemma registered_role_passes_the_checkers_witness :
  let w' := with_users (λ rows : list User, (rows ++ [dave])%list) world0 in
  register_user dave_data "s4" 4 t0 world0 = (Return dave, w') ∧
  (∀ u, u ∈ users world0 → u_email u ≠ uc_username dave_data) ∧
  t0 + minutes 5 < t0 + minutes 30 ∧
  ∃ out,
    login_for_access_token "dave" "pw-d" t0 w' = (Return out, w') ∧
    (resolve_admin_user (access_token out) (t0 + minutes 5) w').1
      = Return (3%nat, set_last_login (t0 + minutes 5) dave).
Proof.
  intros w'.
  assert (H1 : register_user dave_data "s4" 4 t0 world0 = (Return dave, w'))
    by (vm_compute; reflexivity).
  assert (H2 : ∀ u, u ∈ users world0 → u_email u ≠ uc_username dave_data).
  { intros u Hu. cbn in Hu. rewrite !elem_of_cons, elem_of_nil in Hu.
    destruct Hu as [->|[->|[->|[]]]]; discriminate. }
  assert (H3 : t0 + minutes 5 < t0 + minutes 30) by reflexivity.
  destruct (registered_role_passes_the_checkers (jwt := ref_jwt) dave_data "s4" 4 t0
              world0 w' dave t0 H1 H2) as (out & Hlogin & Hlater).
  split_and!; [assumption..|].
  exists out. split; [exact Hlogin|].
  exact (proj2 (Hlater _ H3) eq_refl).
Defined.

Lemma registered_username_shadowed_by_email_witness :
  let w' := with_users (λ rows : list User, (rows ++ [mallory])%list) world0 in
  register_user mallory_data "s5" 5 t0 world0 = (Return mallory, w') ∧
  list_find (username_or_email (uc_username mallory_data)) (users world0)
    = Some (0%nat, alice) ∧
  (∀ u, u ∈ users world0 → u_username u ≠ uc_email mallory_data) ∧
  t0 + minutes 5 < t0 + minutes 30 ∧
  ∃ out,
    login_for_access_token "mallory@example.com" "pw-m" t0 w' = (Return out, w') ∧
    (get_current_user (access_token out) (t0 + minutes 5) w').1
      = Return (0%nat, set_last_login (t0 + minutes 5) alice).
Proof.
  intros w'.
  assert (H1 : register_user mallory_data "s5" 5 t0 world0 = (Return mallory, w'))
    by (vm_compute; reflexivity).
  assert (H2 : list_find (username_or_email (uc_username mallory_data)) (users world0)
               = Some (0%nat, alice)) by (vm_compute; reflexivity).
  assert (H3 : ∀ u, u ∈ users world0 → u_username u ≠ uc_email mallory_data).
  { intros u Hu. cbn in Hu. rewrite !elem_of_cons, elem_of_nil in Hu.
    destruct Hu as [->|[->|[->|[]]]]; discriminate. }
  assert (H4 : t0 + minutes 5 < t0 + minutes 30) by reflexivity.
  destruct (registered_username_shadowed_by_email (jwt := ref_jwt) mallory_data "s5" 5
              t0 world0 w' mallory 0%nat alice t0 H1 H2 H3)
    as (_ & _ & out & Hlogin & Hlater).
  split_and!; [assumption..|].
  exists out. split; [exact Hlogin | exact (Hlater _ H4)].
Defined.

Lemma user_routes_keep_identities_witness :
  let upd := mkUserUpdate (Some (Some "Alice")) None None None in
  let updated := (update_current_user_route alice_token upd (t0 + minutes 1) world0).2 in
  unique_credentials (users world0) ∧
  identity <$> users updated = identity <$> users world0 ∧
  unique_credentials (users updated) ∧
  u_first_name <$> users updated !! 0%nat = Some (Some "Alice").
Proof.
  intros upd updated.
  assert (H1 : unique_credentials (users world0)).
  { split; apply (bool_decide_unpack _); vm_compute; exact I. }
  destruct (user_routes_keep_identities (jwt := ref_jwt) alice_token (t0 + minutes 1)
              world0 "" "" "" upd) as [Hall _].
  destruct (Hall updated) as (Hid & _ & Hunique).
  { apply list_elem_of_further, list_elem_of_further, list_elem_of_here. }
  split_and!; [exact H1 | exact Hid | exact (Hunique H1) |].
  vm_compute. reflexivity.
Defined.


Lemma update_property_keeps_ownership_witness :
  let upd := mkPropertyUpdate (Some "Villa") None in
  (update_property 99 upd (5%nat, olga) world1).1 = Raise not_found ∧
  (update_property 99 upd (5%nat, olga) world1).2 = world1 ∧
  (update_property 11 upd (5%nat, olga) world1).1
    = Return (mkProperty 11 7 (Some 2) "Villa" ACTIVE) ∧
  list_find (λ p, p_id p = 11) (properties (update_property 11 upd (5%nat, olga) world1).2)
    = Some (1%nat, mkProperty 11 7 (Some 2) "Villa" ACTIVE).
Proof.
  intros upd.
  assert (H1 : (update_property 99 upd (5%nat, olga) world1).1 = Raise not_found)
    by (vm_compute; reflexivity).
  assert (H2 : (update_property 11 upd (5%nat, olga) world1).1
               = Return (mkProperty 11 7 (Some 2) "Villa" ACTIVE))
    by (vm_compute; reflexivity).
  destruct (update_property_keeps_ownership 99 upd (5%nat, olga) world1)
    as (_ & _ & _ & Hraise & _).
  destruct (update_property_keeps_ownership 11 upd (5%nat, olga) world1)
    as (_ & _ & _ & _ & Hreturn).
  split_and!; [exact H1 | exact (proj1 (Hraise _ H1)) | exact H2 |].
  rewrite (proj2 (Hreturn _ H2)). vm_compute. reflexivity.
Defined.

Lemma delete_property_removes_the_row_witness :
  unique_property_ids (properties world1) ∧
  (delete_property 11 (5%nat, olga) world1).1
    = Return {["detail" := "Property deleted successfully"]} ∧
  let w' := (delete_property 11 (5%nat, olga) world1).2 in
  length (properties world1) = S (length (properties w')) ∧
  delete_property 11 (5%nat, olga) w' = (Raise not_found, w').
Proof.
  assert (H1 : unique_property_ids (properties world1))
    by (apply (bool_decide_unpack _); vm_compute; exact I).
  assert (H2 : (delete_property 11 (5%nat, olga) world1).1
               = Return {["detail" := "Property deleted successfully"]})
    by (vm_compute; reflexivity).
  destruct (delete_property_removes_the_row 11 (5%nat, olga) world1 H1)
    as (_ & Hreturn).
  destruct (Hreturn _ H2) as (_ & Hlen & _ & _ & Hgone).
  split_and!; [exact H1 | exact H2 |]. intros w'.
  split; [exact Hlen|].
  exact (proj1 (Hgone (5%nat, olga) (mkPropertyUpdate None None))).
Defined.

Lemma agent_may_update_but_not_delete_witness :
  let upd := mkPropertyUpdate None (Some SOLD) in
  list_find (λ p, p_id p = 11) (properties world1) = Some (1%nat, flat) ∧
  p_agent_id flat = Some (u_id bob) ∧ p_owner_id flat ≠ u_id bob ∧
  u_role bob ≠ ADMIN ∧
  (update_property 11 upd (1%nat, bob) world1).1
    = Return (mkProperty 11 7 (Some 2) "Flat" SOLD) ∧
  delete_property 11 (1%nat, bob) world1 = (Raise not_authorized, world1).
Proof.
  intros upd.
  assert (H1 : list_find (λ p, p_id p = 11) (properties world1) = Some (1%nat, flat))
    by (vm_compute; reflexivity).
  assert (H2 : p_agent_id flat = Some (u_id bob)) by reflexivity.
  assert (H3 : p_owner_id flat ≠ u_id bob) by discriminate.
  assert (H4 : u_role bob ≠ ADMIN) by discriminate.
  destruct (agent_may_update_but_not_delete 11 upd (1%nat, bob) world1 1%nat flat
              H1 H2 H3 H4) as [Hupd Hdel].
  split_and!; [assumption.. | | exact Hdel].
  rewrite Hupd. reflexivity.
Defined.

Lemma create_access_token_edge_lifetimes_witness :
  representable t0 ∧ representable (t0 + - 1000000) ∧
  - 1000000 ≤ - 1000000 ∧ t0 ≤ t0 ∧
  get_current_user
    (create_access_token {["sub" := CStr "alice"]} (Some (- 1000000)) t0) t0 world0
    = (Raise credentials_exception, world0).
Proof.
  assert (H1 : - 1000000 ≤ - 1000000) by reflexivity.
  assert (H2 : t0 ≤ t0) by reflexivity.
  assert (R1 : representable t0) by (split; discriminate).
  assert (R2 : representable (t0 + - 1000000)) by (split; discriminate).
  split_and!; [exact R1 | exact R2 | exact H1 | exact H2 |].
  exact (proj2 (create_access_token_edge_lifetimes (jwt := ref_jwt)
                  ∅ "alice" t0 (- 1000000) t0 world0 R1 R2 H1 H2)).
Defined.

End MoreRuns.
